(** * au-scraper: the captcha solver and the login retry loop

    A shallow embedding of [scraper-script.py]: the class [CaptchaSolver]
    (template library, binarisation, segmentation, template matching), the
    class [AUInfoExtractor] ([login] first, then [setup_driver],
    [extract_marks] and [extract_info]) and [main].

    - NumPy arrays are two-dimensional: a shape and an indexing function.
    - Python's [float] results are kept as exact rationals, with the two
      special values NumPy's scalar division produces on a zero divisor;
      binary64 rounding is not modelled.
    - Effects (the file system, the logger, the local variable
      [captcha_path] of [login] that outlives the [try] suite) live in one
      state record threaded by a state-and-exception monad.
    - What the browser driver and PIL's resampling filter answer is not in
      the repository: both are inputs of the model.
    - [main] is modelled from the parsed arguments on: what [argparse]
      does with a command line is not in the repository either. *)

From Stdlib Require Import ZArith QArith Lia List Ascii String.
From stdpp Require Import base gmap strings list pretty.

(** ** Exceptions, log records, program state *)

(** The exception classes the modelled code can meet; all of them derive
    from [Exception], and [TimeoutException] is the one the first handler
    of [login] selects. *)
Inductive exn :=
| FileNotFoundError
| UnidentifiedImageError
| ValueError
| IndexError
| UnboundLocalError
| TimeoutException
| NoSuchElementException
| WebDriverException.

Definition is_timeout (e : exn) : bool :=
  match e with TimeoutException => true | _ => false end.

(** A decoded single-channel image: [luminance x y]. *)
Record picture := Picture {
  width : nat;
  height : nat;
  luminance : nat → nat → Z
}.

(** What a path of the file system holds. *)
Inductive file :=
| Image_file (pic : picture)
| Garbage_file.

(** One constructor per [logger] call of the source, and one per file
    system access. *)
Inductive event :=
| io_image_open (path : string)
| io_screenshot (path : string)
| io_remove (path : string)
| log_error_preprocess (e : exn)
| log_error_extract (position : Z) (e : exn)
| log_error_match (e : exn)
| log_warning_low_confidence (position : Z)
| log_error_solve (e : exn)
| log_info_attempt (n max_retries : Z)
| log_info_solution (solution : string)
| log_info_login_ok
| log_warning_timeout (n : Z)
| log_error_attempt (n : Z) (e : exn).

Record state := State {
  files : gmap string file;
  events : list event;
  captcha_path : option string
}.

Inductive result (A : Type) :=
| Ok (a : A)
| Raise (e : exn).
Arguments Ok {A} a.
Arguments Raise {A} e.

Definition M (A : Type) : Type := state → result A * state.

#[global] Instance M_ret : MRet M := λ A a st, (Ok a, st).
#[global] Instance M_bind : MBind M := λ A B f m st,
  match m st with
  | (Ok a, st') => f a st'
  | (Raise e, st') => (Raise e, st')
  end.

Definition raise {A} (e : exn) : M A := λ st, (Raise e, st).

Definition emit (ev : event) : M unit := λ st,
  (Ok tt, State (files st) (events st ++ [ev]) (captcha_path st)).

(** [try: m except Exception as e: h e] *)
Definition try_except {A} (m : M A) (h : exn → M A) : M A := λ st,
  match m st with
  | (Ok a, st') => (Ok a, st')
  | (Raise e, st') => h e st'
  end.

(** The wrapper every method of [CaptchaSolver] has:
    [except Exception as e: logger.error(...); raise]. *)
Definition log_and_reraise {A} (msg : exn → event) (m : M A) : M A :=
  try_except m (λ e, _ ← emit (msg e); raise e).

(** ** NumPy *)

Record ndarray := NdArray {
  nrows : nat;
  ncols : nat;
  item : nat → nat → Z
}.

Definition shape (a : ndarray) : nat * nat := (nrows a, ncols a).
Definition size (a : ndarray) : nat := nrows a * ncols a.

(** [np.array(rows, dtype=np.uint8)] for a rectangular literal. *)
Definition np_array (rows : list (list Z)) : ndarray :=
  {| nrows := length rows;
     ncols := length (nth 0 rows []);
     item := λ r c, nth c (nth r rows []) 0%Z |}.

(** [a * k] on a [uint8] array. *)
Definition uint8_mul (a : ndarray) (k : Z) : ndarray :=
  {| nrows := nrows a; ncols := ncols a;
     item := λ r c, ((item a r c * k) mod 256)%Z |}.

(** [np.array(img)]: rows are the [y] coordinate. *)
Definition np_array_of_image (img : picture) : ndarray :=
  {| nrows := height img; ncols := width img;
     item := λ r c, luminance img c r |}.

(** [a > k], booleans kept as 0 and 1. *)
Definition np_greater (a : ndarray) (k : Z) : ndarray :=
  {| nrows := nrows a; ncols := ncols a;
     item := λ r c, Z.b2z (k <? item a r c)%Z |}.

(** [a * k] on a boolean array: the result is a signed 64-bit array. *)
Definition bool_mul (a : ndarray) (k : Z) : ndarray :=
  {| nrows := nrows a; ncols := ncols a;
     item := λ r c, (item a r c * k)%Z |}.

(** A bound of a slice with step 1 over [n] elements: negative bounds
    count from the end, and the result is clipped to [0, n]. *)
Definition slice_index (n : nat) (i : Z) : nat :=
  let i' := if (i <? 0)%Z then (i + Z.of_nat n)%Z else i in
  if (i' <? 0)%Z then 0
  else if (Z.of_nat n <=? i')%Z then n
  else Z.to_nat i'.

(** [a[:, start:stop]] *)
Definition np_cols_slice (a : ndarray) (start stop : Z) : ndarray :=
  let lo := slice_index (ncols a) start in
  let hi := slice_index (ncols a) stop in
  {| nrows := nrows a; ncols := hi - lo;
     item := λ r c, item a r (lo + c) |}.

(** Broadcasting of one axis. *)
Definition broadcastable (d1 d2 : nat) : bool :=
  (d1 =? d2) || (d1 =? 1) || (d2 =? 1).
Definition broadcast_dim (d1 d2 : nat) : nat := if d1 =? 1 then d2 else d1.
Definition broadcast_idx (d i : nat) : nat := if d =? 1 then 0 else i.

(** [a == b]: [None] when the shapes cannot be broadcast together. *)
Definition np_equal (a b : ndarray) : option ndarray :=
  if broadcastable (nrows a) (nrows b) && broadcastable (ncols a) (ncols b)
  then Some
    {| nrows := broadcast_dim (nrows a) (nrows b);
       ncols := broadcast_dim (ncols a) (ncols b);
       item := λ r c,
         Z.b2z (item a (broadcast_idx (nrows a) r) (broadcast_idx (ncols a) c)
                =? item b (broadcast_idx (nrows b) r) (broadcast_idx (ncols b) c))%Z |}
  else None.

(** What [==] does with shapes that cannot be broadcast depends on the
    installed NumPy: from 1.25 on it raises [ValueError]; before, it warned
    and answered the scalar [False]. The repository pins no version. *)
Inductive numpy_version :=
| mismatch_raises
| mismatch_is_False.

(** Number of [true] cells of a boolean function over a grid. *)
Definition count_row (f : nat → Z) (n : nat) : nat :=
  length (filter (λ c, f c ≠ 0%Z) (seq 0 n)).

Fixpoint count_rows (f : nat → nat → Z) (n : nat) (rows : list nat) : nat :=
  match rows with
  | [] => 0
  | r :: rest => count_row (f r) n + count_rows f n rest
  end.

(** [np.sum] of a boolean array. *)
Definition np_sum (a : ndarray) : nat :=
  count_rows (item a) (ncols a) (seq 0 (nrows a)).

(** A [float64] result. *)
Inductive np_float :=
| Finite (q : Q)
| PosInf
| NaN.

(** [np.int64(a) / b] for counts: a zero divisor gives [nan] or [inf]
    (with a warning), not an exception. *)
Definition np_true_divide (a b : nat) : np_float :=
  match b with
  | 0 => match a with 0 => NaN | _ => PosInf end
  | _ => Finite (inject_Z (Z.of_nat a) / inject_Z (Z.of_nat b))
  end.

Definition np_times (x : np_float) (k : Q) : np_float :=
  match x with
  | Finite q => Finite (q * k)
  | PosInf => PosInf
  | NaN => NaN
  end.

Definition Qlt_bool (x y : Q) : bool := negb (Qle_bool y x).

(** [x > y] and [x < y]; every comparison with [nan] is false. *)
Definition np_gt (x y : np_float) : bool :=
  match x, y with
  | Finite a, Finite b => Qlt_bool b a
  | PosInf, Finite _ => true
  | _, _ => false
  end.

Definition np_lt (x y : np_float) : bool := np_gt y x.

(** [range(n)] *)
Definition range (n : Z) : list Z := map Z.of_nat (seq 0 (Z.to_nat n)).

(** [''.join(parts)] *)
Definition join (parts : list string) : string :=
  fold_right String.append EmptyString parts.

(** ** class CaptchaSolver *)

Record CaptchaSolver := {
  test_set : list ndarray;
  char_map : string
}.

Definition template_0 : ndarray :=
  uint8_mul (np_array
    [ [0; 1; 1; 1; 1; 1; 1; 0];
      [1; 1; 1; 1; 1; 1; 1; 1];
      [1; 1; 0; 0; 0; 0; 1; 1];
      [1; 1; 0; 0; 0; 0; 1; 1];
      [1; 1; 0; 0; 0; 0; 1; 1];
      [1; 1; 0; 0; 0; 0; 1; 1];
      [1; 1; 0; 0; 0; 0; 1; 1];
      [1; 1; 0; 0; 0; 0; 1; 1];
      [1; 1; 1; 1; 1; 1; 1; 1];
      [0; 1; 1; 1; 1; 1; 1; 0] ]%Z) 255.

Definition _load_test_set : list ndarray :=
  let templates := [] in
  let templates := templates ++ [template_0] in
  templates.

(** [CaptchaSolver.__init__] *)
Definition CaptchaSolver_init : CaptchaSolver :=
  {| test_set := _load_test_set;
     char_map := "0123456789ABCDEFGHIJKLMNOPQRSTUVWXYZ" |}.

(** [Image.open(path).convert('L')] *)
Definition Image_open_L (path : string) : M picture := λ st,
  let st' := State (files st) (events st ++ [io_image_open path]) (captcha_path st) in
  match files st !! path with
  | None => (Raise FileNotFoundError, st')
  | Some Garbage_file => (Raise UnidentifiedImageError, st')
  | Some (Image_file pic) => (Ok pic, st')
  end.

(** [s[idx]] on a string *)
Definition str_index (s : string) (idx : nat) : M string :=
  match String.get idx s with
  | Some c => mret (String c EmptyString)
  | None => raise IndexError
  end.

Section Scraper.

(** PIL's resampling filter: [resample img w h x y] is the luminance at
    [(x, y)] of [img] resized to [w] by [h]. *)
Variable resample : picture → nat → nat → nat → nat → Z.
Variable numpy : numpy_version.

(** [img.resize((w, h))] *)
Definition Image_resize (img : picture) (w h : nat) : picture :=
  {| width := w; height := h; luminance := resample img w h |}.

Definition _preprocess_image (image_path : string) : M ndarray :=
  log_and_reraise log_error_preprocess (
    img ← Image_open_L image_path;
    let img := Image_resize img 70 20 in
    let matrix := np_array_of_image img in
    let matrix := bool_mul (np_greater matrix 128) 255 in
    mret matrix).

Definition _extract_character (matrix : ndarray) (position : Z) : M ndarray :=
  log_and_reraise (log_error_extract position) (
    let start_x := (position * 10)%Z in
    let char_matrix := np_cols_slice matrix start_x (start_x + 10)%Z in
    mret char_matrix).

Definition _calculate_match_percentage (char_matrix test_matrix : ndarray)
  : M np_float :=
  log_and_reraise log_error_match (
    matching_pixels ←
      match np_equal char_matrix test_matrix with
      | Some eq => mret (np_sum eq)
      | None =>
          match numpy with
          | mismatch_raises => raise ValueError
          | mismatch_is_False => mret 0
          end
      end;
    let total_pixels := size char_matrix in
    mret (np_times (np_true_divide matching_pixels total_pixels) 100)).

(** The inner loop of [solve]:
    [for idx, test_matrix in enumerate(self.test_set)], started at index
    [idx] with the running [(best_match, best_char)]. *)
Fixpoint match_loop (self : CaptchaSolver) (char_matrix : ndarray)
    (templates : list ndarray) (idx : nat) (best : np_float * string)
  : M (np_float * string) :=
  match templates with
  | [] => mret best
  | test_matrix :: rest =>
      match_percent ← _calculate_match_percentage char_matrix test_matrix;
      best' ← (if np_gt match_percent (fst best)
               then best_char ← str_index (char_map self) idx;
                    mret (match_percent, best_char)
               else mret best);
      match_loop self char_matrix rest (S idx) best'
  end.

(** The body of [for i in range(6)], up to [result.append]. *)
Definition solve_position (self : CaptchaSolver) (matrix : ndarray) (i : Z)
  : M string :=
  char_matrix ← _extract_character matrix i;
  best ← match_loop self char_matrix (test_set self) 0 (Finite 0, EmptyString);
  _ ← (if np_lt (fst best) (Finite 50)
       then emit (log_warning_low_confidence i)
       else mret tt);
  mret (snd best).

Fixpoint solve_positions (self : CaptchaSolver) (matrix : ndarray)
    (positions : list Z) (result : list string) : M (list string) :=
  match positions with
  | [] => mret result
  | i :: rest =>
      best_char ← solve_position self matrix i;
      solve_positions self matrix rest (result ++ [best_char])
  end.

Definition solve (self : CaptchaSolver) (captcha_path : string) : M string :=
  log_and_reraise log_error_solve (
    matrix ← _preprocess_image captcha_path;
    result ← solve_positions self matrix (range 6) [];
    mret (join result)).


(** ** class AUInfoExtractor *)

(** What [captcha_elem.screenshot(path)] does: it writes the file, or it
    swallows an I/O error and returns [False] with nothing written, or the
    driver raises. *)
Inductive shot :=
| shot_saved (f : file)
| shot_not_saved
| shot_raises (e : exn).

(** The answers of the browser driver during one attempt, [None] meaning
    that the call returns. What the site answers to a submission may depend
    on the three submitted fields. *)
Record attempt_env := {
  get_login_page : option exn;
  wait_username : option exn;
  find_captcha_image : option exn;
  screenshot : shot;
  fill_and_click : string → string → string → option exn;
  wait_dashboard : string → string → string → option exn
}.

Definition driver_call (answer : option exn) : M unit :=
  match answer with
  | None => mret tt
  | Some e => raise e
  end.

Definition screenshot_to (s : shot) (path : string) : M unit :=
  match s with
  | shot_saved f => λ st,
      (Ok tt, State (<[path := f]> (files st))
                    (events st ++ [io_screenshot path]) (captcha_path st))
  | shot_not_saved => mret tt
  | shot_raises e => raise e
  end.

(** Assignment to and reads of the local variable [captcha_path]. *)
Definition assign_captcha_path (p : string) : M unit := λ st,
  (Ok tt, State (files st) (events st) (Some p)).

Definition read_captcha_path : M string := λ st,
  match captcha_path st with
  | Some p => (Ok p, st)
  | None => (Raise UnboundLocalError, st)
  end.

(** A call of [login] starts with [captcha_path] unbound. *)
Definition enter_login : M unit := λ st,
  (Ok tt, State (files st) (events st) None).

Definition os_path_exists (p : string) : M bool := λ st,
  (Ok (bool_decide (is_Some (files st !! p))), st).

Definition os_remove (p : string) : M unit := λ st,
  match files st !! p with
  | Some _ =>
      (Ok tt, State (delete p (files st)) (events st ++ [io_remove p])
                    (captcha_path st))
  | None => (Raise FileNotFoundError, st)
  end.

(** [try: m finally: fin]: [fin] runs on every way out of [m]; an
    exception of [fin] replaces the pending outcome. *)
Definition try_finally {A} (m : M A) (fin : M unit) : M A := λ st,
  match m st with
  | (r, st') =>
      match fin st' with
      | (Ok _, st'') => (r, st'')
      | (Raise e, st'') => (Raise e, st'')
      end
  end.

(** How one pass through the loop body ends when no exception escapes. *)
Inductive completion :=
| Return_ (b : bool)
| Continue_.

(** [f"temp_captcha_{attempt}.png"] *)
Definition temp_captcha (attempt : Z) : string :=
  "temp_captcha_" +:+ pretty attempt +:+ ".png".

(** The [try] suite of [login]. *)
Definition login_try (self : CaptchaSolver) (env : attempt_env)
    (username password : string) (attempt max_retries : Z) : M completion :=
  _ ← emit (log_info_attempt (attempt + 1) max_retries);
  _ ← driver_call (get_login_page env);
  _ ← driver_call (wait_username env);
  _ ← driver_call (find_captcha_image env);
  _ ← assign_captcha_path (temp_captcha attempt);
  p ← read_captcha_path;
  _ ← screenshot_to (screenshot env) p;
  p ← read_captcha_path;
  captcha_solution ← solve self p;
  _ ← emit (log_info_solution captcha_solution);
  _ ← driver_call (fill_and_click env username password captcha_solution);
  _ ← driver_call (wait_dashboard env username password captcha_solution);
  _ ← emit log_info_login_ok;
  mret (Return_ true).

(** The two [except] clauses. *)
Definition login_except (attempt max_retries : Z) (e : exn) : M completion :=
  if is_timeout e then
    _ ← emit (log_warning_timeout (attempt + 1));
    if (attempt =? max_retries - 1)%Z then raise e else mret Continue_
  else
    _ ← emit (log_error_attempt (attempt + 1) e);
    if (attempt =? max_retries - 1)%Z then raise e else mret Continue_.

(** The [finally] clause. *)
Definition login_finally : M unit :=
  p ← read_captcha_path;
  found ← os_path_exists p;
  if found : bool then p ← read_captcha_path; os_remove p else mret tt.

(** One pass through the body of [for attempt in range(max_retries)]. *)
Definition login_attempt (self : CaptchaSolver) (env : attempt_env)
    (username password : string) (attempt max_retries : Z) : M completion :=
  try_finally
    (try_except (login_try self env username password attempt max_retries)
                (login_except attempt max_retries))
    login_finally.

Fixpoint login_loop (self : CaptchaSolver) (driver : Z → attempt_env)
    (username password : string) (max_retries : Z) (attempts : list Z)
  : M bool :=
  match attempts with
  | [] => mret false
  | attempt :: rest =>
      c ← login_attempt self (driver attempt) username password
            attempt max_retries;
      match c with
      | Return_ b => mret b
      | Continue_ =>
          login_loop self driver username password max_retries rest
      end
  end.

Definition login (self : CaptchaSolver) (driver : Z → attempt_env)
    (username password : string) (max_retries : Z) : M bool :=
  _ ← enter_login;
  login_loop self driver username password max_retries (range max_retries).

End Scraper.

(** ** The rest of class AUInfoExtractor, and main

    [setup_driver], [extract_marks], [extract_info] and [main] add effects
    the state above has no place for: the browser session, the standard
    output, the output file, and an exception without a class of its own.
    They run in a second monad over a state that holds the first one and
    a journal of its own; [lift] runs a computation of the first monad in
    the second. What the elements of a page hold is read as data. *)

(** What travels up from [extract_info] and [main]. *)
Inductive app_exn :=
| Core (e : exn)
| LoginFailed
| OSError.

(** One row of [marks_data]: the dictionary with the keys ["code"],
    ["name"], ["internal"], ["external"], ["total"], ["result"]. *)
Module Subject.
Record t := Make {
  code : string;
  name : string;
  internal : string;
  external : string;
  total : string;
  result : string
}.
End Subject.

(** The command line after [parser.parse_args()]. *)
Module Args.
Record t := Make {
  username : string;
  password : string;
  semester : option string;
  output : option string
}.
End Args.

(** What the site answers on the marks page: the driver calls, and the
    rows of the marks table (each row the texts of its [td] cells) once
    the semester [selected] has been clicked, if any. *)
Record marks_env := {
  get_marks_page : option exn;
  click_semester_select : option exn;
  click_semester_option : string → option exn;
  wait_marks_table : option exn;
  find_marks_table : option exn;
  table_rows : option string → list (list string)
}.

(** Everything outside the program during one run of [extract_info]. *)
Record site := {
  start_chrome : option exn;
  implicitly_wait : option exn;
  login_pages : Z → attempt_env;
  marks_pages : marks_env;
  quit_chrome : option exn
}.

Inductive app_event :=
| chrome_started
| chrome_quit
| marks_page_requested (url : string)
| semester_clicked (semester : string)
| log_error_setup (e : app_exn)
| log_error_marks (e : app_exn)
| log_error_extraction (e : app_exn)
| log_error_main (e : app_exn)
| log_info_saved (path : string)
| printed (line : string)
| json_written (path : string) (marks_data : list Subject.t).

(** [driver] is the local variable of [extract_info]. *)
Record app_state := AppState {
  core : state;
  journal : list app_event;
  driver : option site
}.

Inductive outcome (A : Type) :=
| Done (a : A)
| Fail (e : app_exn).
Arguments Done {A} a.
Arguments Fail {A} e.

Definition App (A : Type) : Type := app_state → outcome A * app_state.

#[global] Instance App_ret : MRet App := λ A a w, (Done a, w).
#[global] Instance App_bind : MBind App := λ A B f m w,
  match m w with
  | (Done a, w') => f a w'
  | (Fail e, w') => (Fail e, w')
  end.

Definition fail {A} (e : app_exn) : App A := λ w, (Fail e, w).

Definition note (ev : app_event) : App unit := λ w,
  (Done tt, AppState (core w) (journal w ++ [ev]) (driver w)).

Definition lift {A} (m : M A) : App A := λ w,
  match m (core w) with
  | (Ok a, st) => (Done a, AppState st (journal w) (driver w))
  | (Raise e, st) => (Fail (Core e), AppState st (journal w) (driver w))
  end.

Definition app_call (answer : option exn) : App unit :=
  match answer with
  | None => mret tt
  | Some e => fail (Core e)
  end.

Definition app_try_except {A} (m : App A) (h : app_exn → App A) : App A :=
  λ w,
  match m w with
  | (Done a, w') => (Done a, w')
  | (Fail e, w') => h e w'
  end.

Definition app_log_and_reraise {A} (msg : app_exn → app_event) (m : App A)
  : App A :=
  app_try_except m (λ e, _ ← note (msg e); fail e).

Definition app_try_finally {A} (m : App A) (fin : App unit) : App A := λ w,
  match m w with
  | (r, w') =>
      match fin w' with
      | (Done _, w'') => (r, w'')
      | (Fail e, w'') => (Fail e, w'')
      end
  end.

Definition assign_driver (d : option site) : App unit := λ w,
  (Done tt, AppState (core w) (journal w) d).

Definition read_driver : App (option site) := λ w, (Done (driver w), w).

(** Truth value of an optional string: [None] and [''] are false. *)
Definition truthy (s : option string) : option string :=
  match s with
  | Some (String _ _ as t) => Some t
  | _ => None
  end.

Record AUInfoExtractor := {
  captcha_solver : CaptchaSolver;
  base_url : string;
  login_url : string;
  marks_url : string
}.

(** [AUInfoExtractor.__init__] *)
Definition AUInfoExtractor_init : AUInfoExtractor :=
  let base_url := "https://coe.annauniv.edu" in
  {| captcha_solver := CaptchaSolver_init;
     base_url := base_url;
     login_url := base_url +:+ "/login.php";
     marks_url := base_url +:+ "/student/marks.php" |}.

(** [cols[i].text] *)
Definition cell_text (cols : list string) (i : nat) : App string :=
  match cols !! i with
  | Some text => mret text
  | None => fail (Core IndexError)
  end.

(** The dictionary display of [extract_marks], evaluated key by key. *)
Definition subject_of_cols (cols : list string) : App Subject.t :=
  code ← cell_text cols 0;
  name ← cell_text cols 1;
  internal ← cell_text cols 2;
  external ← cell_text cols 3;
  total ← cell_text cols 4;
  result ← cell_text cols 5;
  mret (Subject.Make code name internal external total result).

(** [for row in rows: ...; marks_data.append(subject_data)] *)
Fixpoint marks_loop (rows : list (list string)) (marks_data : list Subject.t)
  : App (list Subject.t) :=
  match rows with
  | [] => mret marks_data
  | cols :: rest =>
      subject_data ← subject_of_cols cols;
      marks_loop rest (marks_data ++ [subject_data])
  end.

Section Extractor.

Variable resample : picture → nat → nat → nat → nat → Z.
Variable numpy : numpy_version.

Definition setup_driver (web : site) : App site :=
  app_log_and_reraise log_error_setup (
    _ ← app_call (start_chrome web);
    _ ← note chrome_started;
    _ ← app_call (implicitly_wait web);
    mret web).

Definition extract_marks (self : AUInfoExtractor) (driver : site)
    (semester : option string) : App (list Subject.t) :=
  app_log_and_reraise log_error_marks (
    _ ← note (marks_page_requested (marks_url self));
    _ ← app_call (get_marks_page (marks_pages driver));
    selected ←
      match truthy semester with
      | Some semester =>
          _ ← app_call (click_semester_select (marks_pages driver));
          _ ← app_call (click_semester_option (marks_pages driver) semester);
          _ ← note (semester_clicked semester);
          mret (Some semester)
      | None => mret None
      end;
    _ ← app_call (wait_marks_table (marks_pages driver));
    _ ← app_call (find_marks_table (marks_pages driver));
    let rows := table_rows (marks_pages driver) selected in
    let marks_data := [] in
    marks_loop (tail rows) marks_data).

(** The [try] suite of [extract_info]; [login] is called with its default
    budget of 3. *)
Definition extract_info_try (self : AUInfoExtractor) (web : site)
    (username password : string) (semester : option string)
  : App (list Subject.t) :=
  d ← setup_driver web;
  _ ← assign_driver (Some d);
  logged_in ← lift (login resample numpy (captcha_solver self)
                      (login_pages d) username password 3);
  if negb logged_in then fail LoginFailed
  else
    marks_data ← extract_marks self d semester;
    mret marks_data.

(** The [finally] clause of [extract_info]: [if driver: driver.quit()]. *)
Definition extract_info_finally : App unit :=
  d ← read_driver;
  match d with
  | Some d =>
      _ ← note chrome_quit;
      app_call (quit_chrome d)
  | None => mret tt
  end.

Definition extract_info (self : AUInfoExtractor) (web : site)
    (username password : string) (semester : option string)
  : App (list Subject.t) :=
  _ ← assign_driver None;
  app_try_finally
    (app_log_and_reraise log_error_extraction
       (extract_info_try self web username password semester))
    extract_info_finally.

(** The five [print] calls for one subject. *)
Definition print_subject (subject : Subject.t) : App unit :=
  _ ← note (printed (String "010" "Subject: " +:+ Subject.name subject
                       +:+ " (" +:+ Subject.code subject +:+ ")"));
  _ ← note (printed ("Internal: " +:+ Subject.internal subject));
  _ ← note (printed ("External: " +:+ Subject.external subject));
  _ ← note (printed ("Total: " +:+ Subject.total subject));
  note (printed ("Result: " +:+ Subject.result subject)).

Fixpoint print_subjects (marks_data : list Subject.t) : App unit :=
  match marks_data with
  | [] => mret tt
  | subject :: rest => _ ← print_subject subject; print_subjects rest
  end.

(** [with open(path, 'w') as f: json.dump(marks_data, f, indent=2)], on a
    path that can or cannot be opened for writing. *)
Definition dump_json (can_write : string → bool) (path : string)
    (marks_data : list Subject.t) : App unit :=
  if can_write path then note (json_written path marks_data)
  else fail OSError.

(** The [try] suite of [main]. *)
Definition main_try (web : site) (can_write : string → bool) (args : Args.t)
  : App unit :=
  let extractor := AUInfoExtractor_init in
  marks_data ← extract_info extractor web (Args.username args)
                  (Args.password args) (Args.semester args);
  match marks_data with
  | [] => mret tt
  | _ :: _ =>
      match truthy (Args.output args) with
      | Some path =>
          _ ← dump_json can_write path marks_data;
          note (log_info_saved path)
      | None => print_subjects marks_data
      end
  end.

(** [main] after the arguments are parsed; the result is the exit status
    of the process. *)
Definition main (web : site) (can_write : string → bool) (args : Args.t)
  : app_state → Z * app_state := λ w,
  match main_try web can_write args w with
  | (Done _, w') => (0%Z, w')
  | (Fail e, w') =>
      (1%Z, AppState (core w') (journal w' ++ [log_error_main e]) (driver w'))
  end.

End Extractor.

(** ** Notions used to state the properties *)

(** The score of two arrays of one shape, as the specification words it:
    (count of equal positions / total positions) × 100. *)
Definition equal_at (a b : ndarray) (r c : nat) : Z :=
  Z.b2z (item a r c =? item b r c)%Z.

Definition matching_pixels (a b : ndarray) : nat :=
  count_rows (equal_at a b) (ncols a) (seq 0 (nrows a)).

Definition match_percentage (a b : ndarray) : Q :=
  (inject_Z (Z.of_nat (matching_pixels a b))
   / inject_Z (Z.of_nat (size a)) * 100)%Q.

(** A score that is a finite number within given bounds, or equal to a
    given number. *)
Definition np_between (lo hi : Q) (x : np_float) : Prop :=
  match x with
  | Finite q => (lo <= q <= hi)%Q
  | _ => False
  end.

Definition np_is (k : Q) (x : np_float) : Prop :=
  match x with
  | Finite q => (q == k)%Q
  | _ => False
  end.

Definition pixel_identical (a b : ndarray) : Prop :=
  ∀ r c, r < nrows a → c < ncols a → item a r c = item b r c.

Definition no_pixel_matches (a b : ndarray) : Prop :=
  ∀ r c, r < nrows a → c < ncols a → item a r c ≠ item b r c.

(** The warnings [solve] logs, in order, when the best scores of the
    positions [positions] are [tops]. *)
Fixpoint low_confidence_warnings (positions : list Z) (tops : list Q)
  : list event :=
  match positions, tops with
  | i :: positions, top :: tops =>
      (if Qlt_bool top 50 then [log_warning_low_confidence i] else [])
      ++ low_confidence_warnings positions tops
  | _, _ => []
  end.

(** The number of attempts a log records: one [Login attempt n/max] line
    opens each attempt. *)
Fixpoint attempts_made (evs : list event) : nat :=
  match evs with
  | [] => 0
  | log_info_attempt _ _ :: rest => S (attempts_made rest)
  | _ :: rest => attempts_made rest
  end.

(** A computation that touches neither the file system nor
    [captcha_path]: all it may do is append to the log. *)
Definition only_logs {A} (m : M A) : Prop :=
  ∀ st, files (m st).2 = files st ∧ captcha_path (m st).2 = captcha_path st.


(** ** Concrete inputs of the examples *)

(** A resampling filter that leaves a picture of the target size as it
    is. *)
Definition keep_pixels : picture → nat → nat → nat → nat → Z :=
  λ pic _ _ x y, luminance pic x y.

Definition white_captcha : picture := Picture 70 20 (λ _ _, 255%Z).
Definition black_captcha : picture := Picture 70 20 (λ _ _, 0%Z).
Definition ramp_captcha : picture := Picture 70 20 (λ x _, Z.of_nat x * 2)%Z.

(** A file system holding one decodable image, an empty log, and no
    [login] in progress. *)
Definition disk_with (path : string) (pic : picture) : state :=
  State {[ path := Image_file pic ]} [] None.

Definition empty_disk : state := State ∅ [] None.

(** The matrix [_preprocess_image] makes of the white captcha. *)
Definition white_matrix : ndarray :=
  bool_mul (np_greater (np_array_of_image
    (Image_resize keep_pixels white_captcha 70 20)) 128) 255.

(** Arrays of the shape of a cell, all white and all black. *)
Definition white_cell : ndarray := NdArray 20 10 (λ _ _, 255%Z).
Definition black_cell : ndarray := NdArray 20 10 (λ _ _, 0%Z).

(** A solver whose library holds two templates of the shape of a cell,
    and one whose library is empty. *)
Definition two_white_templates : CaptchaSolver :=
  {| test_set := [white_cell; white_cell];
     char_map := char_map CaptchaSolver_init |}.

Definition no_templates : CaptchaSolver :=
  {| test_set := []; char_map := char_map CaptchaSolver_init |}.

(** A site whose login form never renders: the first wait of every attempt
    times out. *)
Definition form_never_renders : attempt_env :=
  {| get_login_page := None;
     wait_username := Some TimeoutException;
     find_captcha_image := None;
     screenshot := shot_saved (Image_file white_captcha);
     fill_and_click := λ _ _ _, None;
     wait_dashboard := λ _ _ _, None |}.

(** A site that serves the form and the captcha but never shows the
    dashboard. *)
Definition dashboard_never_shows : attempt_env :=
  {| get_login_page := None;
     wait_username := None;
     find_captcha_image := None;
     screenshot := shot_saved (Image_file white_captcha);
     fill_and_click := λ _ _ _, None;
     wait_dashboard := λ _ _ _, Some TimeoutException |}.

(** A site that lets everybody in. *)
Definition always_welcome : attempt_env :=
  {| get_login_page := None;
     wait_username := None;
     find_captcha_image := None;
     screenshot := shot_saved (Image_file white_captcha);
     fill_and_click := λ _ _ _, None;
     wait_dashboard := λ _ _ _, None |}.


(** A computation that opens no login attempt: the log it leaves is the
    log it found, extended by lines of other kinds. *)
Definition logs_no_attempt {A} (m : M A) : Prop :=
  ∀ st, ∃ evs, events (m st).2 = events st ++ evs ∧ attempts_made evs = 0.

(** A library of 37 white templates, one more than [char_map] has
    characters, and a solver with 36 black templates followed by a white
    one. *)
Definition thirty_six_black_one_white : CaptchaSolver :=
  {| test_set := replicate 36 black_cell ++ [white_cell];
     char_map := char_map CaptchaSolver_init |}.

(** A file system whose captcha file is no image. *)
Definition disk_with_garbage (path : string) : state :=
  State {[ path := Garbage_file ]} [] None.

(** The site [env] as it answers when the captcha field is left empty. *)
Definition answers_to_blank (env : attempt_env) : attempt_env :=
  {| get_login_page := get_login_page env;
     wait_username := wait_username env;
     find_captcha_image := find_captcha_image env;
     screenshot := screenshot env;
     fill_and_click := λ username password _,
       fill_and_click env username password EmptyString;
     wait_dashboard := λ username password _,
       wait_dashboard env username password EmptyString |}.

(** The record [extract_marks] makes of the cells of one row, when the
    row has the six cells it reads. *)
Definition subject_of (cols : list string) : option Subject.t :=
  match cols with
  | code :: name :: internal :: external :: total :: result :: _ =>
      Some (Subject.Make code name internal external total result)
  | _ => None
  end.

(** What a journal says the program did: how often Chrome was started and
    quit, which lines went to the standard output, which files were
    written, how often the marks page was requested. *)
Fixpoint starts (evs : list app_event) : nat :=
  match evs with
  | [] => 0
  | chrome_started :: rest => S (starts rest)
  | _ :: rest => starts rest
  end.

Fixpoint quits (evs : list app_event) : nat :=
  match evs with
  | [] => 0
  | chrome_quit :: rest => S (quits rest)
  | _ :: rest => quits rest
  end.

Fixpoint printed_lines (evs : list app_event) : list string :=
  match evs with
  | [] => []
  | printed line :: rest => line :: printed_lines rest
  | _ :: rest => printed_lines rest
  end.

Fixpoint written_files (evs : list app_event)
  : list (string * list Subject.t) :=
  match evs with
  | [] => []
  | json_written path marks_data :: rest =>
      (path, marks_data) :: written_files rest
  | _ :: rest => written_files rest
  end.

Fixpoint marks_requests (evs : list app_event) : nat :=
  match evs with
  | [] => 0
  | marks_page_requested _ :: rest => S (marks_requests rest)
  | _ :: rest => marks_requests rest
  end.

(** The five lines [main] prints for one subject. *)
Definition lines_of (subject : Subject.t) : list string :=
  [ String "010" "Subject: " +:+ Subject.name subject
      +:+ " (" +:+ Subject.code subject +:+ ")";
    "Internal: " +:+ Subject.internal subject;
    "External: " +:+ Subject.external subject;
    "Total: " +:+ Subject.total subject;
    "Result: " +:+ Subject.result subject ].

(** A computation of the second monad that leaves the variable [driver]
    alone, adds to the journal only lines of the kind [P], and fails only
    with exceptions of the first monad. *)
Definition contained (P : app_event → Prop) {A} (m : App A) : Prop :=
  ∀ w, driver (m w).2 = driver w ∧
       (∃ evs, journal (m w).2 = journal w ++ evs ∧ Forall P evs) ∧
       (∀ e, (m w).1 = Fail e → ∃ e', e = Core e').

(** Journal lines that are neither a start nor a quit of Chrome, nor
    output of [main]. *)
Definition inner_line (ev : app_event) : Prop :=
  match ev with
  | chrome_started | chrome_quit | printed _ | json_written _ _ => False
  | _ => True
  end.

(** A marks page with a header row and two subjects, the second with a
    seventh cell, and a site that serves it. *)
Definition two_subjects : marks_env :=
  {| get_marks_page := None;
     click_semester_select := None;
     click_semester_option := λ _, None;
     wait_marks_table := None;
     find_marks_table := None;
     table_rows := λ _,
       [ ["Code"; "Name"; "Internal"; "External"; "Total"; "Result"];
         ["CS101"; "Programming"; "18"; "70"; "88"; "PASS"];
         ["MA102"; "Calculus"; "12"; "30"; "42"; "FAIL"; "extra"] ] |}.

(** The same page with a row of five cells. *)
Definition short_row : marks_env :=
  {| get_marks_page := None;
     click_semester_select := None;
     click_semester_option := λ _, None;
     wait_marks_table := None;
     find_marks_table := None;
     table_rows := λ _,
       [ ["Code"; "Name"; "Internal"; "External"; "Total"; "Result"];
         ["CS101"; "Programming"; "18"; "70"; "88"; "PASS"];
         ["MA102"; "Calculus"; "12"; "30"; "42"] ] |}.

Definition friendly_site : site :=
  {| start_chrome := None;
     implicitly_wait := None;
     login_pages := λ _, always_welcome;
     marks_pages := two_subjects;
     quit_chrome := None |}.

Definition short_row_site : site :=
  {| start_chrome := None;
     implicitly_wait := None;
     login_pages := λ _, always_welcome;
     marks_pages := short_row;
     quit_chrome := None |}.

(** A machine on which Chrome starts but the session cannot be
    configured. *)
Definition half_started_site : site :=
  {| start_chrome := None;
     implicitly_wait := Some WebDriverException;
     login_pages := λ _, always_welcome;
     marks_pages := two_subjects;
     quit_chrome := None |}.

Definition fresh_run : app_state := AppState empty_disk [] None.

Definition plain_args : Args.t :=
  Args.Make "user" "secret" None None.

Definition args_with_output : Args.t :=
  Args.Make "user" "secret" None (Some "marks.json").

(** The state in which [extract_marks] reads the table: the page has been
    requested and, for a semester that is true, its option clicked. *)
Definition after_selection (self : AUInfoExtractor) (semester : option string)
    (w : app_state) : app_state :=
  AppState (core w)
    (journal w ++ marks_page_requested (marks_url self) ::
       match truthy semester with
       | Some s => [semester_clicked s]
       | None => []
       end)
    (driver w).

(** A working directory in which a file of the name of the first capture
    is already there, as a run stopped between the capture and the cleanup
    leaves it; and one with a file of the name of the second capture. *)
Definition stale_first_capture : state :=
  disk_with (temp_captcha 0) black_captcha.

Definition stale_second_capture : state :=
  disk_with (temp_captcha 1) black_captcha.

(** A site whose login form renders in the first attempt only and whose
    dashboard never shows. *)
Definition form_renders_once (attempt : Z) : attempt_env :=
  if (attempt =? 0)%Z then dashboard_never_shows else form_never_renders.

(** A matrix of 20 rows and 65 columns whose elements are their column
    numbers. *)
Definition column_numbers : ndarray := NdArray 20 65 (λ _ c, Z.of_nat c).

(** ** Proof automation *)

Ltac no_branch t :=
  lazymatch t with
  | context [if _ then _ else _] => fail
  | _ => idtac
  end.

Ltac slice_cases :=
  cbv zeta;
  repeat match goal with
  | |- context [(?a <? ?b)%Z] =>
      no_branch a; no_branch b; destruct (Z.ltb_spec a b)
  | |- context [(?a <=? ?b)%Z] =>
      no_branch a; no_branch b; destruct (Z.leb_spec a b)
  end; lia.

Ltac innermost x :=
  lazymatch x with
  | context [match _ with _ => _ end] => fail
  | _ => idtac
  end.

Ltac step_in H :=
  repeat (simpl in H;
          match type of H with
          | context [match ?x with _ => _ end] =>
              innermost x; destruct x eqn:?
          end);
  simpl in H.

(** ** Preprocessing and segmentation *)

Lemma preprocess_ok resample image_path pic st :
  files st !! image_path = Some (Image_file pic) →
  _preprocess_image resample image_path st =
    (Ok (bool_mul (np_greater
           (np_array_of_image (Image_resize resample pic 70 20)) 128) 255),
     State (files st) (events st ++ [io_image_open image_path])
           (captcha_path st)).
Proof.
  intros Hfile.
  unfold _preprocess_image, log_and_reraise, try_except, mbind, M_bind,
    Image_open_L.
  now rewrite Hfile.
Qed.

Lemma preprocess_inv resample image_path st matrix st' :
  _preprocess_image resample image_path st = (Ok matrix, st') →
  ∃ pic, files st !! image_path = Some (Image_file pic) ∧
    matrix = bool_mul (np_greater
      (np_array_of_image (Image_resize resample pic 70 20)) 128) 255.
Proof.
  unfold _preprocess_image, log_and_reraise, try_except, mbind, M_bind,
    Image_open_L.
  destruct (files st !! image_path) as [[pic|]|]; simpl; intros H;
    try discriminate.
  exists pic. split; [reflexivity|]. now inversion H.
Qed.

(** C7. For every decodable image, [_preprocess_image] returns a matrix of
    20 rows and 70 columns; the pixel at row [r], column [c] is 255 when the
    resized luminance there is strictly greater than 128 and 0 otherwise, so
    every element is 0 or 255. *)
Theorem preprocess_shape_and_threshold resample image_path pic st :
  files st !! image_path = Some (Image_file pic) →
  ∃ matrix st',
    _preprocess_image resample image_path st = (Ok matrix, st') ∧
    nrows matrix = 20 ∧ ncols matrix = 70 ∧
    (∀ r c, item matrix r c =
       if (128 <? resample pic 70%nat 20%nat c r)%Z then 255%Z else 0%Z) ∧
    (∀ r c, item matrix r c = 0%Z ∨ item matrix r c = 255%Z).
Proof.
  intros Hfile. eexists _, _. split; [apply preprocess_ok, Hfile|].
  repeat split; simpl; intros r c.
  - now destruct (128 <? resample pic 70%nat 20%nat c r)%Z.
  - destruct (128 <? resample pic 70%nat 20%nat c r)%Z; simpl; auto.
Qed.

Lemma extract_character_ok matrix position st :
  _extract_character matrix position st =
    (Ok (np_cols_slice matrix (position * 10) (position * 10 + 10)), st).
Proof. reflexivity. Qed.

Lemma slice_index_inside n i :
  (0 ≤ i ≤ Z.of_nat n)%Z → slice_index n i = Z.to_nat i.
Proof.
  intros Hi. unfold slice_index. slice_cases.
Qed.

Lemma slice_index_beyond n i :
  (Z.of_nat n ≤ i)%Z → slice_index n i = n.
Proof.
  intros Hi. unfold slice_index. slice_cases.
Qed.

Lemma slice_index_le n i : slice_index n i ≤ n.
Proof.
  unfold slice_index. slice_cases.
Qed.

Lemma slice_width_le n i : slice_index n (i + 10) - slice_index n i ≤ 10.
Proof.
  unfold slice_index. slice_cases.
Qed.

(** C2. The shipped library is not empty: it holds the one 10 by 8
    template. In the shipped pipeline the cell of every position 0..5 has
    20 rows and 10 columns, so every comparison that the classification
    of [solve] makes, one per position, hands
    [_calculate_match_percentage] two operands whose shapes differ and
    cannot be broadcast. The comparison then does not count pixels: with a
    NumPy that checks the shapes it raises [ValueError], in the call and
    so in the inner loop, and [solve] stops at the comparison of position
    0; with one that answers [False] the score is 0, the inner loop keeps
    the label [''], and [solve] goes through the six positions, warns of
    low confidence at each and returns the empty string. *)
Theorem shipped_cell_and_template_shapes_differ
    resample image_path st matrix st' :
  _preprocess_image resample image_path st = (Ok matrix, st') →
  test_set CaptchaSolver_init = [template_0] ∧
  shape template_0 = (10, 8) ∧
  (∀ i st1, (0 ≤ i < 6)%Z →
     ∃ cell,
       _extract_character matrix i st1 = (Ok cell, st1) ∧
       shape cell = (20, 10) ∧
       (∀ template, template ∈ test_set CaptchaSolver_init →
          shape template = (10, 8) ∧
          shape cell ≠ shape template ∧
          np_equal cell template = None ∧
          _calculate_match_percentage mismatch_raises cell template st1
            = (Raise ValueError,
               State (files st1)
                     (events st1 ++ [log_error_match ValueError])
                     (captcha_path st1)) ∧
          ∃ q, _calculate_match_percentage mismatch_is_False cell template
                 st1 = (Ok (Finite q), st1) ∧ (q == 0)%Q) ∧
       match_loop mismatch_raises CaptchaSolver_init cell
           (test_set CaptchaSolver_init) 0 (Finite 0, EmptyString) st1
         = (Raise ValueError,
            State (files st1) (events st1 ++ [log_error_match ValueError])
                  (captcha_path st1)) ∧
       match_loop mismatch_is_False CaptchaSolver_init cell
           (test_set CaptchaSolver_init) 0 (Finite 0, EmptyString) st1
         = (Ok (Finite 0, EmptyString), st1)) ∧
  solve resample mismatch_raises CaptchaSolver_init image_path st
    = (Raise ValueError,
       State (files st)
             (events st ++ [io_image_open image_path;
                            log_error_match ValueError;
                            log_error_solve ValueError])
             (captcha_path st)) ∧
  solve resample mismatch_is_False CaptchaSolver_init image_path st
    = (Ok EmptyString,
       State (files st)
             (events st ++ io_image_open image_path ::
                map log_warning_low_confidence (range 6))
             (captcha_path st)).
Proof.
  intros Hpre.
  apply preprocess_inv in Hpre as (pic & Hfile & ->).
  split; [reflexivity|]. split; [reflexivity|]. split.
  - intros i st1 Hi.
    eexists. split; [apply extract_character_ok|].
    assert (Hcases : i = 0%Z ∨ i = 1%Z ∨ i = 2%Z ∨ i = 3%Z ∨ i = 4%Z ∨
                     i = 5%Z) by lia.
    destruct Hcases as [->|[->|[->|[->|[->| ->]]]]];
      (split; [reflexivity|]);
      (split; [|split; reflexivity]);
      intros template Hin; apply list_elem_of_singleton in Hin as ->;
      (split; [reflexivity|]); (split; [discriminate|]);
      (split; [reflexivity|]); (split; [reflexivity|]);
      (eexists; split; reflexivity).
  - unfold solve, log_and_reraise, try_except, mbind, M_bind.
    rewrite (preprocess_ok resample image_path pic st Hfile).
    split; simpl; rewrite <- !app_assoc; reflexivity.
Qed.

Lemma shipped_cell_and_template_shapes_differ_witness :
  ∃ cell,
    _extract_character white_matrix 3 empty_disk = (Ok cell, empty_disk) ∧
    shape cell = (20, 10) ∧
    shape cell ≠ shape template_0 ∧
    np_equal cell template_0 = None ∧
    _calculate_match_percentage mismatch_raises cell template_0 empty_disk
      = (Raise ValueError,
         State ∅ [log_error_match ValueError] None) ∧
    solve keep_pixels mismatch_raises CaptchaSolver_init "c.png"
      (disk_with "c.png" white_captcha)
      = (Raise ValueError,
         State {[ "c.png" := Image_file white_captcha ]}
               [io_image_open "c.png"; log_error_match ValueError;
                log_error_solve ValueError] None).
Proof.
  destruct (shipped_cell_and_template_shapes_differ keep_pixels "c.png"
              (disk_with "c.png" white_captcha) _ _
              (preprocess_ok keep_pixels "c.png" white_captcha
                 (disk_with "c.png" white_captcha) eq_refl))
    as (Hlib & _ & Hcells & Hsolve & _).
  destruct (Hcells 3%Z empty_disk ltac:(lia))
    as (cell & Hcell & Hshape & Hall & _).
  destruct (Hall template_0 ltac:(rewrite Hlib; apply list_elem_of_here))
    as (_ & Hne & Heq & Hraise & _).
  exists cell. repeat split; assumption.
Defined.

Lemma preprocess_shape_and_threshold_witness :
  ∃ matrix st',
    _preprocess_image keep_pixels "c.png" (disk_with "c.png" ramp_captcha)
      = (Ok matrix, st') ∧
    nrows matrix = 20 ∧ ncols matrix = 70 ∧
    (∀ r c, item matrix r c =
       if (128 <? Z.of_nat c * 2)%Z then 255%Z else 0%Z) ∧
    (∀ r c, item matrix r c = 0%Z ∨ item matrix r c = 255%Z).
Proof.
  apply (preprocess_shape_and_threshold keep_pixels "c.png" ramp_captcha
           (disk_with "c.png" ramp_captcha)).
  reflexivity.
Defined.

(** ** Segmentation out of range *)

Lemma slice_index_from_left n i :
  (0 ≤ i)%Z → slice_index n i = Nat.min (Z.to_nat i) n.
Proof.
  intros Hi. unfold slice_index. slice_cases.
Qed.

Lemma slice_index_from_right n i :
  (i < 0)%Z → slice_index n i = Z.to_nat (Z.max 0 (Z.of_nat n + i)).
Proof.
  intros Hi. unfold slice_index. slice_cases.
Qed.

(** C6 (as amended). [_extract_character] checks no range and never fails
    on a matrix: it returns the columns of the window that exist. The cell
    has the rows of the matrix and at most 10 columns, all of them columns
    of the matrix. For a position from 0 on, both ends of the window
    [position * 10, position * 10 + 10) are clipped to the width [W] of the
    matrix: the cell is the columns from [min (position * 10) W] up to
    [min (position * 10 + 10) W], which are exactly 10 columns when the
    window lies inside the matrix and the [W - position * 10] that are
    left when it runs past the last column. Position -1 gives a cell with
    no column, its window ending at column 0. For a position from -2 down
    both ends are counted from the right edge and clipped at the left one:
    the cell is the columns from [max 0 (W + position * 10)] up to
    [max 0 (W + position * 10 + 10)]. *)
Theorem extract_character_clips_and_never_fails matrix position st :
  ∃ cell,
    _extract_character matrix position st = (Ok cell, st) ∧
    nrows cell = nrows matrix ∧
    ncols cell ≤ 10 ∧
    (∀ r c, c < ncols cell →
       ∃ c', c' < ncols matrix ∧ item cell r c = item matrix r c') ∧
    ((0 ≤ position)%Z → (position * 10 + 10 ≤ Z.of_nat (ncols matrix))%Z →
       ncols cell = 10 ∧
       ∀ r c, item cell r c = item matrix r (Z.to_nat (position * 10) + c)) ∧
    ((0 ≤ position)%Z → (Z.of_nat (ncols matrix) < position * 10 + 10)%Z →
       ncols cell = ncols matrix - Z.to_nat (position * 10)) ∧
    ((0 ≤ position)%Z →
       ncols cell =
         Nat.min (Z.to_nat (position * 10 + 10)) (ncols matrix)
         - Nat.min (Z.to_nat (position * 10)) (ncols matrix) ∧
       ∀ r c, item cell r c =
         item matrix r
           (Nat.min (Z.to_nat (position * 10)) (ncols matrix) + c)) ∧
    (position = (-1)%Z → ncols cell = 0) ∧
    ((position ≤ -2)%Z →
       ncols cell =
         Z.to_nat (Z.max 0 (Z.of_nat (ncols matrix) + position * 10 + 10))
         - Z.to_nat (Z.max 0 (Z.of_nat (ncols matrix) + position * 10)) ∧
       ∀ r c, item cell r c =
         item matrix r
           (Z.to_nat (Z.max 0 (Z.of_nat (ncols matrix) + position * 10))
            + c)).
Proof.
  eexists. split; [apply extract_character_ok|].
  unfold np_cols_slice; cbn [nrows ncols item].
  split; [done|]. split; [apply slice_width_le|].
  split; [|split; [|split; [|split; [|split]]]].
  - intros r c Hc. eexists. split; [|done].
    pose proof (slice_index_le (ncols matrix) (position * 10 + 10)). lia.
  - intros Hpos Hfit. rewrite !slice_index_inside by lia.
    split; [lia | done].
  - intros Hpos Hpast. rewrite slice_index_beyond by lia.
    destruct (Z.le_gt_cases (position * 10) (Z.of_nat (ncols matrix))).
    + rewrite slice_index_inside by lia. done.
    + rewrite slice_index_beyond by lia. lia.
  - intros Hpos. rewrite !slice_index_from_left by lia. done.
  - intros ->. change (-1 * 10 + 10)%Z with 0%Z.
    rewrite (slice_index_from_left _ 0) by lia. simpl. lia.
  - intros Hneg. rewrite !slice_index_from_right by lia.
    rewrite Z.add_assoc. done.
Qed.

Lemma extract_character_clips_and_never_fails_witness :
  (∃ cell, _extract_character column_numbers 6 empty_disk
             = (Ok cell, empty_disk) ∧
           ncols cell = 5 ∧
           ∀ r c, item cell r c = Z.of_nat (60 + c)) ∧
  (∃ cell, _extract_character column_numbers (-2) empty_disk
             = (Ok cell, empty_disk) ∧
           ncols cell = 10 ∧
           ∀ r c, item cell r c = Z.of_nat (45 + c)) ∧
  (∃ cell, _extract_character column_numbers (-7) empty_disk
             = (Ok cell, empty_disk) ∧
           ncols cell = 5 ∧
           ∀ r c, item cell r c = Z.of_nat (0 + c)).
Proof.
  repeat split.
  - destruct (extract_character_clips_and_never_fails column_numbers 6
                empty_disk)
      as (cell & Hrun & _ & _ & _ & _ & _ & Hleft & _).
    exists cell. split; [exact Hrun|].
    exact (Hleft ltac:(lia)).
  - destruct (extract_character_clips_and_never_fails column_numbers (-2)
                empty_disk)
      as (cell & Hrun & _ & _ & _ & _ & _ & _ & _ & Hright).
    exists cell. split; [exact Hrun|].
    exact (Hright ltac:(lia)).
  - destruct (extract_character_clips_and_never_fails column_numbers (-7)
                empty_disk)
      as (cell & Hrun & _ & _ & _ & _ & _ & _ & _ & Hright).
    exists cell. split; [exact Hrun|].
    exact (Hright ltac:(lia)).
Defined.

(** C6, counterexample. On the 20 by 70 matrix position 7 is outside 0..5
    and its window, columns 70 to 80, lies past the width; the call returns
    a cell with no column. Position 6 returns a full cell, and position -2
    the columns 50 to 59. *)
Lemma extract_outside_the_range_returns_a_cell :
  (5 < 7)%Z ∧ (Z.of_nat (ncols white_matrix) < 7 * 10 + 10)%Z ∧
  (∃ cell, _extract_character white_matrix 7 empty_disk
             = (Ok cell, empty_disk) ∧ shape cell = (20, 0)) ∧
  (∃ cell, _extract_character white_matrix 6 empty_disk
             = (Ok cell, empty_disk) ∧ shape cell = (20, 10)) ∧
  (∃ cell, _extract_character white_matrix (-2) empty_disk
             = (Ok cell, empty_disk) ∧ shape cell = (20, 10)).
Proof.
  split; [lia|]. split; [simpl; lia|].
  repeat split; eexists; (split; [apply extract_character_ok | reflexivity]).
Qed.

(** ** Scoring *)

Lemma percent_as_fraction (m t : nat) :
  0 < t →
  (inject_Z (Z.of_nat m) / inject_Z (Z.of_nat t) * 100 ==
   (100 * Z.of_nat m) # (Pos.of_nat t))%Q.
Proof.
  intros Ht. unfold Qdiv, Qinv, inject_Z. simpl Qnum.
  destruct (Z.of_nat t) as [|p|p] eqn:E; try lia.
  assert (Pos.of_nat t = p) as -> by lia.
  unfold Qeq, Qmult. simpl. lia.
Qed.

Lemma percent_bounds (m t : nat) :
  0 < t → m ≤ t →
  (0 <= inject_Z (Z.of_nat m) / inject_Z (Z.of_nat t) * 100 <= 100)%Q.
Proof.
  intros Ht Hm. rewrite (percent_as_fraction m t Ht).
  unfold Qle. simpl. lia.
Qed.

Lemma percent_full (m t : nat) :
  0 < t →
  (inject_Z (Z.of_nat m) / inject_Z (Z.of_nat t) * 100 == 100)%Q ↔ m = t.
Proof.
  intros Ht. rewrite (percent_as_fraction m t Ht).
  unfold Qeq. simpl. lia.
Qed.

Lemma percent_zero (m t : nat) :
  0 < t →
  (inject_Z (Z.of_nat m) / inject_Z (Z.of_nat t) * 100 == 0)%Q ↔ m = 0.
Proof.
  intros Ht. rewrite (percent_as_fraction m t Ht).
  unfold Qeq. simpl. lia.
Qed.

Lemma filter_length_full {A} (P : A → Prop) `{∀ x, Decision (P x)} (l : list A) :
  length (filter P l) = length l ↔ Forall P l.
Proof.
  induction l as [|x l IH]; simpl.
  - split; auto.
  - rewrite filter_cons. pose proof (length_filter P l).
    destruct (decide (P x)); simpl; rewrite Forall_cons.
    + rewrite <- IH. split; [intros; split; [done|lia] | intros [_ ?]; lia].
    + split; [lia | tauto].
Qed.

Lemma filter_length_zero {A} (P : A → Prop) `{∀ x, Decision (P x)} (l : list A) :
  length (filter P l) = 0 ↔ Forall (λ x, ¬ P x) l.
Proof.
  induction l as [|x l IH]; simpl.
  - split; auto.
  - rewrite filter_cons.
    destruct (decide (P x)); simpl; rewrite Forall_cons.
    + split; [lia | tauto].
    + rewrite IH. tauto.
Qed.

Lemma count_row_le f n : count_row f n ≤ n.
Proof.
  unfold count_row. etrans; [apply length_filter|]. now rewrite length_seq.
Qed.

Lemma count_row_full f n : count_row f n = n ↔ ∀ c, c < n → f c ≠ 0%Z.
Proof.
  unfold count_row.
  pose proof (filter_length_full (λ c, f c ≠ 0%Z) (seq 0 n)) as Hfull.
  rewrite length_seq in Hfull. rewrite Hfull, Forall_forall.
  split; intros H c Hc; apply H.
  - apply elem_of_seq. lia.
  - apply elem_of_seq in Hc. lia.
Qed.

Lemma count_row_zero f n : count_row f n = 0 ↔ ∀ c, c < n → f c = 0%Z.
Proof.
  unfold count_row. rewrite filter_length_zero, Forall_forall.
  split; intros H c Hc.
  - apply dec_stable, H, elem_of_seq. lia.
  - intros Hne. apply Hne, H. apply elem_of_seq in Hc. lia.
Qed.

Lemma filter_agree {A} (P R : A → Prop)
    `{∀ x, Decision (P x)} `{∀ x, Decision (R x)} (l : list A) :
  (∀ x, x ∈ l → P x ↔ R x) → filter P l = filter R l.
Proof.
  induction l as [|x l IH]; intros Hl; [reflexivity|].
  rewrite !filter_cons, IH by (intros; apply Hl; now right).
  assert (P x ↔ R x) by (apply Hl; left).
  destruct (decide (P x)), (decide (R x)); tauto.
Qed.

Lemma count_row_ext f g n :
  (∀ c, c < n → f c = g c) → count_row f n = count_row g n.
Proof.
  intros H. unfold count_row. f_equal. apply filter_agree.
  intros c Hc. apply elem_of_seq in Hc. rewrite H by lia. tauto.
Qed.

Lemma count_rows_ext f g n rows :
  (∀ r c, r ∈ rows → c < n → f r c = g r c) →
  count_rows f n rows = count_rows g n rows.
Proof.
  induction rows as [|r rows IH]; intros H; simpl; [reflexivity|].
  rewrite IH by (intros; apply H; [now right | done]).
  f_equal. apply count_row_ext. intros c Hc. apply H; [left | done].
Qed.

Lemma count_rows_le f n rows : count_rows f n rows ≤ length rows * n.
Proof.
  induction rows as [|r rows IH]; simpl; [lia|].
  pose proof (count_row_le (f r) n). lia.
Qed.

Lemma count_rows_full f n rows :
  count_rows f n rows = length rows * n ↔
  ∀ r c, r ∈ rows → c < n → f r c ≠ 0%Z.
Proof.
  induction rows as [|r rows IH]; simpl.
  - split; [intros _ r c Hr; inversion Hr | reflexivity].
  - pose proof (count_row_le (f r) n). pose proof (count_rows_le f n rows).
    split.
    + intros Hsum r' c Hr' Hc.
      apply elem_of_cons in Hr' as [->|Hr'].
      * apply (count_row_full (f r) n); [lia | done].
      * apply IH; [lia | done | done].
    + intros Hall.
      assert (count_row (f r) n = n) as ->.
      { apply count_row_full. intros c Hc. apply Hall; [left | done]. }
      f_equal. apply IH. intros r' c Hr' Hc. apply Hall; [now right | done].
Qed.

Lemma count_rows_zero f n rows :
  count_rows f n rows = 0 ↔ ∀ r c, r ∈ rows → c < n → f r c = 0%Z.
Proof.
  induction rows as [|r rows IH]; simpl.
  - split; [intros _ r c Hr; inversion Hr | reflexivity].
  - split.
    + intros Hsum r' c Hr' Hc.
      apply elem_of_cons in Hr' as [->|Hr'].
      * apply (count_row_zero (f r) n); [lia | done].
      * apply IH; [lia | done | done].
    + intros Hall.
      assert (count_row (f r) n = 0) as ->.
      { apply count_row_zero. intros c Hc. apply Hall; [left | done]. }
      apply IH. intros r' c Hr' Hc. apply Hall; [now right | done].
Qed.

Lemma matching_pixels_le a b : matching_pixels a b ≤ size a.
Proof.
  unfold matching_pixels, size.
  etrans; [apply count_rows_le|]. now rewrite length_seq.
Qed.

Lemma equal_at_nonzero a b r c :
  equal_at a b r c ≠ 0%Z ↔ item a r c = item b r c.
Proof.
  unfold equal_at. destruct (Z.eqb_spec (item a r c) (item b r c)); simpl;
    split; intros; try done; lia.
Qed.

Lemma equal_at_zero a b r c :
  equal_at a b r c = 0%Z ↔ item a r c ≠ item b r c.
Proof.
  unfold equal_at. destruct (Z.eqb_spec (item a r c) (item b r c)); simpl;
    split; intros; try done; lia.
Qed.

Lemma matching_pixels_full a b :
  matching_pixels a b = size a ↔ pixel_identical a b.
Proof.
  unfold matching_pixels, size, pixel_identical.
  pose proof (count_rows_full (equal_at a b) (ncols a) (seq 0 (nrows a)))
    as Hfull.
  rewrite length_seq in Hfull. rewrite Hfull.
  split; intros H r c Hr Hc.
  - apply equal_at_nonzero, H; [apply elem_of_seq; lia | done].
  - apply equal_at_nonzero, H; [apply elem_of_seq in Hr; lia | done].
Qed.

Lemma matching_pixels_zero a b :
  matching_pixels a b = 0 ↔ no_pixel_matches a b.
Proof.
  unfold matching_pixels, no_pixel_matches. rewrite count_rows_zero.
  split; intros H r c Hr Hc.
  - apply equal_at_zero, H; [apply elem_of_seq; lia | done].
  - apply equal_at_zero, H; [apply elem_of_seq in Hr; lia | done].
Qed.

Lemma broadcast_idx_same d i : i < d → broadcast_idx d i = i.
Proof.
  unfold broadcast_idx. destruct (Nat.eqb_spec d 1); lia.
Qed.

Lemma np_equal_same_shape a b :
  shape a = shape b →
  ∃ eq, np_equal a b = Some eq ∧ np_sum eq = matching_pixels a b.
Proof.
  unfold shape. intros [= Hr Hc]. unfold np_equal.
  rewrite <- Hr, <- Hc. unfold broadcastable. rewrite !Nat.eqb_refl. simpl.
  eexists. split; [reflexivity|].
  unfold np_sum, matching_pixels; simpl.
  assert (Hd : ∀ d, broadcast_dim d d = d).
  { intros d. unfold broadcast_dim. now destruct (d =? 1). }
  rewrite !Hd. apply count_rows_ext. intros r c Hr' Hc'.
  apply elem_of_seq in Hr'.
  unfold equal_at. now rewrite !broadcast_idx_same by lia.
Qed.

Lemma calculate_same_shape numpy a b st :
  shape a = shape b → 0 < size a →
  _calculate_match_percentage numpy a b st
    = (Ok (Finite (match_percentage a b)), st).
Proof.
  intros Hshape Hsize.
  destruct (np_equal_same_shape a b Hshape) as (eq & Heq & Hsum).
  unfold _calculate_match_percentage, log_and_reraise, try_except, mbind,
    M_bind. rewrite Heq. simpl. rewrite Hsum.
  unfold np_true_divide, match_percentage.
  destruct (size a); [lia | reflexivity].
Qed.

(** C8 (as amended). For every cell that is not empty and every template
    of the same shape, the score is a number of [0, 100]; it is 100 exactly
    when the cell is pixel-identical to the template, and 0 exactly when no
    position matches. *)
Theorem match_percentage_range numpy cell template st :
  shape cell = shape template → 0 < size cell →
  ∃ score,
    _calculate_match_percentage numpy cell template st = (Ok score, st) ∧
    np_between 0 100 score ∧
    (np_is 100 score ↔ pixel_identical cell template) ∧
    (np_is 0 score ↔ no_pixel_matches cell template).
Proof.
  intros Hshape Hsize. eexists. split; [now apply calculate_same_shape|].
  pose proof (matching_pixels_le cell template) as Hle.
  unfold np_between, np_is, match_percentage. repeat split.
  - now apply percent_bounds.
  - now apply percent_bounds.
  - rewrite percent_full by done. apply matching_pixels_full.
  - rewrite <- matching_pixels_full. now apply percent_full.
  - rewrite percent_zero by done. apply matching_pixels_zero.
  - rewrite <- matching_pixels_zero. now apply percent_zero.
Qed.

Lemma match_percentage_range_witness :
  ∃ score,
    _calculate_match_percentage mismatch_raises white_cell white_cell
      empty_disk = (Ok score, empty_disk) ∧
    np_between 0 100 score ∧
    (np_is 100 score ↔ pixel_identical white_cell white_cell) ∧
    (np_is 0 score ↔ no_pixel_matches white_cell white_cell).
Proof.
  apply (match_percentage_range mismatch_raises white_cell white_cell
           empty_disk).
  - reflexivity.
  - unfold size. simpl. lia.
Defined.

(** C8, counterexample. The cell [_extract_character] returns for
    position 7 has no column. Compared with itself it is pixel-identical,
    and no position of it matches, yet the score is [nan]: not a number of
    [0, 100], and neither 100 nor 0. *)
Lemma empty_cell_scores_nan :
  _extract_character white_matrix 7 empty_disk
    = (Ok (np_cols_slice white_matrix 70 80), empty_disk) ∧
  shape (np_cols_slice white_matrix 70 80) = (20, 0) ∧
  pixel_identical (np_cols_slice white_matrix 70 80)
    (np_cols_slice white_matrix 70 80) ∧
  no_pixel_matches (np_cols_slice white_matrix 70 80)
    (np_cols_slice white_matrix 70 80) ∧
  (∀ numpy,
     _calculate_match_percentage numpy (np_cols_slice white_matrix 70 80)
       (np_cols_slice white_matrix 70 80) empty_disk
     = (Ok NaN, empty_disk)) ∧
  ¬ np_between 0 100 NaN ∧ ¬ np_is 100 NaN ∧ ¬ np_is 0 NaN.
Proof.
  split; [reflexivity|]. split; [reflexivity|].
  split; [intros r c _ _; reflexivity|].
  split; [intros r c _ Hc; simpl in Hc; lia|].
  split; [intros []; reflexivity|].
  repeat split; intros H; exact H.
Qed.

(** ** Classification *)

Lemma Qlt_bool_true x y : Qlt_bool x y = true ↔ (x < y)%Q.
Proof.
  unfold Qlt_bool. rewrite negb_true_iff.
  destruct (Qle_bool y x) eqn:E.
  - apply Qle_bool_iff in E. split; [done|]. intros H.
    now apply Qlt_not_le in H.
  - split; [intros _ | done]. apply Qnot_le_lt. intros H.
    apply Qle_bool_iff in H. congruence.
Qed.

Lemma Qlt_bool_false x y : Qlt_bool x y = false ↔ (y <= x)%Q.
Proof.
  destruct (Qlt_bool x y) eqn:E.
  - apply Qlt_bool_true in E. split; [done|]. intros H.
    now apply Qlt_not_le in E.
  - split; [intros _ | done]. apply Qnot_lt_le. intros H.
    apply Qlt_bool_true in H. congruence.
Qed.

Lemma string_get_in_range s : ∀ idx,
  idx < String.length s → ∃ ch, String.get idx s = Some ch.
Proof.
  induction s as [|a s IH]; simpl; intros idx Hidx; [lia|].
  destruct idx as [|idx]; [eauto|]. apply IH. lia.
Qed.

Lemma str_index_in_range s idx st :
  idx < String.length s →
  ∃ ch, String.get idx s = Some ch ∧
        str_index s idx st = (Ok (String ch EmptyString), st).
Proof.
  intros Hidx. destruct (string_get_in_range s idx Hidx) as [ch Hch].
  exists ch. split; [done|]. unfold str_index. now rewrite Hch.
Qed.

(** The inner loop on templates that all have the shape of the cell: the
    running best ends as the maximum of its start and the scores, and it
    carries the label of the first template that reaches that maximum. *)
Lemma match_loop_spec numpy self cell ts : ∀ idx best label,
  (∀ t, t ∈ ts → shape cell = shape t) → 0 < size cell →
  idx + length ts ≤ String.length (char_map self) →
  ∃ top label',
    (∀ st, match_loop numpy self cell ts idx (Finite best, label) st
           = (Ok (Finite top, label'), st)) ∧
    (∀ t, t ∈ ts → (match_percentage cell t <= top)%Q) ∧
    ((top = best ∧ label' = label) ∨
     ((best < top)%Q ∧
      ∃ i t ch,
        ts !! i = Some t ∧ match_percentage cell t = top ∧
        (∀ k t', k < i → ts !! k = Some t' →
                 (match_percentage cell t' < top)%Q) ∧
        String.get (idx + i) (char_map self) = Some ch ∧
        label' = String ch EmptyString)).
Proof.
  induction ts as [|t ts IH]; intros idx best label Hshape Hsize Hlen.
  - exists best, label. split; [done|]. split; [|by left].
    intros t Ht. inversion Ht.
  - simpl in Hlen.
    assert (Hcalc : ∀ st, _calculate_match_percentage numpy cell t st
                          = (Ok (Finite (match_percentage cell t)), st)).
    { intros st. apply calculate_same_shape; [apply Hshape; left | done]. }
    assert (Hrest : ∀ t', t' ∈ ts → shape cell = shape t').
    { intros t' Ht'. apply Hshape. now right. }
    set (p := match_percentage cell t) in *.
    destruct (Qlt_bool best p) eqn:Hcmp.
    + apply Qlt_bool_true in Hcmp.
      destruct (string_get_in_range (char_map self) idx ltac:(lia))
        as [ch Hch].
      destruct (IH (S idx) p (String ch EmptyString) Hrest Hsize ltac:(lia))
        as (top & label' & Hrun & Hall & Hcase).
      exists top, label'. split; [|split].
      * intros st. simpl. unfold mbind, M_bind at 1. rewrite Hcalc.
        simpl. apply Qlt_bool_true in Hcmp. rewrite Hcmp.
        unfold mbind, M_bind, str_index. rewrite Hch. simpl. apply Hrun.
      * intros t' Ht'. apply elem_of_cons in Ht' as [->|Ht']; [|by apply Hall].
        destruct Hcase as [[-> _]|[Hlt _]];
          [apply Qle_refl | by apply Qlt_le_weak].
      * right. destruct Hcase as [[-> ->]|(Hlt & i & t' & ch' & Hi & Hp & Hbefore & Hget & Hlab)].
        -- split; [done|]. exists 0, t, ch. repeat split; try done.
           ++ intros k t' Hk. lia.
           ++ now rewrite Nat.add_0_r.
        -- split; [by eapply Qlt_trans|].
           exists (S i), t', ch'. repeat split; try done.
           ++ intros [|k] t'' Hk Hlook; simpl in Hlook.
              ** now inversion Hlook; subst.
              ** eapply Hbefore; [|done]. lia.
           ++ now rewrite Nat.add_succ_r.
    + apply Qlt_bool_false in Hcmp.
      destruct (IH (S idx) best label Hrest Hsize ltac:(lia))
        as (top & label' & Hrun & Hall & Hcase).
      exists top, label'. split; [|split].
      * intros st. simpl. unfold mbind, M_bind at 1. rewrite Hcalc.
        simpl. apply Qlt_bool_false in Hcmp. rewrite Hcmp.
        unfold mbind, M_bind, mret, M_ret. apply Hrun.
      * intros t' Ht'. apply elem_of_cons in Ht' as [->|Ht']; [|by apply Hall].
        destruct Hcase as [[-> _]|[Hlt _]]; [done|].
        apply Qlt_le_weak. by eapply Qle_lt_trans.
      * destruct Hcase as [[-> ->]|(Hlt & i & t' & ch' & Hi & Hp & Hbefore & Hget & Hlab)];
          [by left | right].
        split; [done|].
        exists (S i), t', ch'. repeat split; try done.
        -- intros [|k] t'' Hk Hlook; simpl in Hlook.
           ++ inversion Hlook; subst. by eapply Qle_lt_trans.
           ++ eapply Hbefore; [|done]. lia.
        -- now rewrite Nat.add_succ_r.
Qed.

(** C9 (as amended). The loop goes through the templates in library order
    and replaces the running best only by a strictly greater score. With
    templates of the shape of the cell, it ends with the greatest score,
    and when that score is above 0 the label returned is the one of the
    lowest index that reaches it: of two templates with equal top
    confidence above 0 the one with the lower index wins. When no score is
    above 0 the label is the empty string. *)
Theorem classify_lowest_index_wins numpy self cell :
  (∀ t, t ∈ test_set self → shape cell = shape t) →
  0 < size cell →
  length (test_set self) ≤ String.length (char_map self) →
  ∃ top label,
    (∀ st, match_loop numpy self cell (test_set self) 0
             (Finite 0, EmptyString) st = (Ok (Finite top, label), st)) ∧
    (∀ t, t ∈ test_set self → (match_percentage cell t <= top)%Q) ∧
    ((0 < top)%Q →
     ∃ i t ch,
       test_set self !! i = Some t ∧ match_percentage cell t = top ∧
       (∀ j t', test_set self !! j = Some t' →
                (match_percentage cell t' == top)%Q → i ≤ j) ∧
       String.get i (char_map self) = Some ch ∧
       label = String ch EmptyString) ∧
    (¬ (0 < top)%Q → label = EmptyString).
Proof.
  intros Hshape Hsize Hlen.
  destruct (match_loop_spec numpy self cell (test_set self) 0 0%Q EmptyString
              Hshape Hsize Hlen) as (top & label & Hrun & Hall & Hcase).
  exists top, label. split; [done|]. split; [done|].
  destruct Hcase as [[-> ->]|(Hlt & i & t & ch & Hi & Hp & Hbefore & Hget & Hlab)].
  - split; [|done]. intros H. now apply Qlt_irrefl in H.
  - split; [|done]. intros _. exists i, t, ch. repeat split; try done.
    intros j t' Hj Heq. destruct (le_lt_dec i j) as [|Hji]; [done|].
    pose proof (Hbefore j t' Hji Hj) as Hless.
    rewrite Heq in Hless. now apply Qlt_irrefl in Hless.
Qed.

Lemma classify_lowest_index_wins_witness :
  ∃ top label,
    (∀ st, match_loop mismatch_raises two_white_templates white_cell
             (test_set two_white_templates) 0 (Finite 0, EmptyString) st
           = (Ok (Finite top, label), st)) ∧
    (∀ t, t ∈ test_set two_white_templates →
          (match_percentage white_cell t <= top)%Q) ∧
    ((0 < top)%Q →
     ∃ i t ch,
       test_set two_white_templates !! i = Some t ∧
       match_percentage white_cell t = top ∧
       (∀ j t', test_set two_white_templates !! j = Some t' →
                (match_percentage white_cell t' == top)%Q → i ≤ j) ∧
       String.get i (char_map two_white_templates) = Some ch ∧
       label = String ch EmptyString) ∧
    (¬ (0 < top)%Q → label = EmptyString).
Proof.
  apply (classify_lowest_index_wins mismatch_raises two_white_templates
           white_cell).
  - intros t Ht. simpl in Ht.
    repeat (apply elem_of_cons in Ht as [->|Ht]; [reflexivity|]).
    inversion Ht.
  - unfold size. simpl. lia.
  - simpl. lia.
Defined.

(** C9, counterexample. Against the black cell the two templates of the
    library, at indices 0 and 1, both score 0, the top confidence. The
    label returned is the empty string, not ["0"], the label of index 0:
    the running best starts at 0 and only a strictly greater score
    replaces it. *)
Lemma tie_at_zero_returns_no_label :
  test_set two_white_templates = [white_cell; white_cell] ∧
  (match_percentage black_cell white_cell == 0)%Q ∧
  String.get 0 (char_map two_white_templates) = Some "0"%char ∧
  (∀ numpy,
     match_loop numpy two_white_templates black_cell
       (test_set two_white_templates) 0 (Finite 0, EmptyString) empty_disk
     = (Ok (Finite 0, EmptyString), empty_disk)) ∧
  EmptyString ≠ String "0" EmptyString.
Proof.
  split; [reflexivity|]. split; [vm_compute; reflexivity|].
  split; [reflexivity|].
  split; [intros []; vm_compute; reflexivity | discriminate].
Qed.

(** ** solve *)

Lemma state_eta st : State (files st) (events st) (captcha_path st) = st.
Proof. now destruct st. Qed.

Lemma string_length_append s1 s2 :
  String.length (s1 +:+ s2) = String.length s1 + String.length s2.
Proof. induction s1 as [|a s1 IH]; simpl; [done | now rewrite IH]. Qed.

Lemma solve_position_spec numpy self matrix i :
  nrows matrix = 20 → ncols matrix = 70 → (0 ≤ i < 6)%Z →
  (∀ t, t ∈ test_set self → shape t = (20, 10)) →
  length (test_set self) ≤ String.length (char_map self) →
  ∃ top label,
    (∀ st, match_loop numpy self
             (np_cols_slice matrix (i * 10) (i * 10 + 10))
             (test_set self) 0 (Finite 0, EmptyString) st
           = (Ok (Finite top, label), st)) ∧
    (∀ st, solve_position numpy self matrix i st
           = (Ok label,
              State (files st)
                (events st ++ low_confidence_warnings [i] [top])
                (captcha_path st))) ∧
    String.length label ≤ 1 ∧
    (String.length label = 1 ↔ (0 < top)%Q).
Proof.
  intros Hr Hc Hi Hshape Hlen.
  set (cell := np_cols_slice matrix (i * 10) (i * 10 + 10)).
  assert (Hcell : shape cell = (20, 10)).
  { subst cell. unfold shape, np_cols_slice. cbn [nrows ncols].
    rewrite Hr, Hc. f_equal. rewrite !slice_index_inside by lia. lia. }
  assert (Hsize : 0 < size cell).
  { unfold size. change (nrows cell) with (shape cell).1.
    change (ncols cell) with (shape cell).2. rewrite Hcell. simpl. lia. }
  destruct (match_loop_spec numpy self cell (test_set self) 0 0%Q EmptyString)
    as (top & label & Hrun & _ & Hcase); [|done|done|].
  { intros t Ht. rewrite Hcell. symmetry. now apply Hshape. }
  exists top, label. split; [done|]. split.
  - intros st. unfold solve_position, mbind, M_bind.
    rewrite extract_character_ok. fold cell. rewrite Hrun. simpl.
    unfold np_lt, np_gt. destruct (Qlt_bool top 50); simpl; [done|].
    now rewrite app_nil_r, state_eta.
  - destruct Hcase as [[-> ->]|(Hlt & _ & _ & ch & _ & _ & _ & _ & ->)];
      simpl.
    + split; [lia|]. split; [lia|]. intros H. now apply Qlt_irrefl in H.
    + split; [lia | tauto].
Qed.

Lemma solve_positions_spec numpy self matrix positions : ∀ result,
  nrows matrix = 20 → ncols matrix = 70 →
  Forall (λ i, 0 ≤ i < 6)%Z positions →
  (∀ t, t ∈ test_set self → shape t = (20, 10)) →
  length (test_set self) ≤ String.length (char_map self) →
  ∃ results : list (Q * string),
    Forall2 (λ i r, ∀ st,
        match_loop numpy self (np_cols_slice matrix (i * 10) (i * 10 + 10))
          (test_set self) 0 (Finite 0, EmptyString) st
        = (Ok (Finite r.1, r.2), st)) positions results ∧
    (∀ st, solve_positions numpy self matrix positions result st
           = (Ok (result ++ results.*2),
              State (files st)
                (events st ++ low_confidence_warnings positions results.*1)
                (captcha_path st))) ∧
    Forall (λ r, String.length r.2 ≤ 1 ∧
                 (String.length r.2 = 1 ↔ (0 < r.1)%Q)) results.
Proof.
  induction positions as [|i positions IH];
    intros result Hr Hc Hpos Hshape Hlen.
  - exists []. split; [constructor|]. split; [|constructor].
    intros st. simpl. now rewrite !app_nil_r, state_eta.
  - apply Forall_cons in Hpos as [Hi Hpos].
    destruct (solve_position_spec numpy self matrix i Hr Hc Hi Hshape Hlen)
      as (top & label & Hloop & Hrun & Hlabel).
    destruct (IH (result ++ [label]) Hr Hc Hpos Hshape Hlen)
      as (results & Hall & Hruns & Hlabels).
    exists ((top, label) :: results). split; [by constructor|].
    split; [|by constructor].
    intros st. simpl. unfold mbind, M_bind at 1. rewrite Hrun, Hruns. simpl.
    now rewrite app_nil_r, <- !app_assoc.
Qed.

Lemma join_length (results : list (Q * string)) :
  Forall (λ r, String.length r.2 ≤ 1 ∧
               (String.length r.2 = 1 ↔ (0 < r.1)%Q)) results →
  String.length (join results.*2) ≤ length results ∧
  (String.length (join results.*2) = length results ↔
   Forall (λ r, (0 < r.1)%Q) results).
Proof.
  unfold join.
  induction 1 as [|r results [Hle Hone] _ [IHle IHall]].
  - simpl. split; [lia|]. split; [constructor | done].
  - rewrite fmap_cons. cbn [fold_right length].
    rewrite string_length_append, Forall_cons. split; [lia|].
    rewrite <- Hone, <- IHall. lia.
Qed.

(** C1 (as amended). On every decodable captcha, with at most 36 templates
    that all have the shape of a cell, [solve] returns whatever the
    confidences are. It logs a warning for exactly the positions whose best
    score is below 50, keeps the label of every position (the empty string
    where no template scored above 0) and returns the six labels joined: a
    string of at most 6 characters, of exactly 6 when every position has a
    score above 0. *)
Theorem solve_survives_low_confidence resample numpy self path pic st :
  files st !! path = Some (Image_file pic) →
  (∀ t, t ∈ test_set self → shape t = (20, 10)) →
  length (test_set self) ≤ String.length (char_map self) →
  ∃ results : list (Q * string),
    Forall2 (λ i r, ∀ st1,
        match_loop numpy self
          (np_cols_slice
             (bool_mul (np_greater (np_array_of_image
                (Image_resize resample pic 70 20)) 128) 255)
             (i * 10) (i * 10 + 10))
          (test_set self) 0 (Finite 0, EmptyString) st1
        = (Ok (Finite r.1, r.2), st1)) (range 6) results ∧
    solve resample numpy self path st
      = (Ok (join results.*2),
         State (files st)
           (events st ++ io_image_open path ::
              low_confidence_warnings (range 6) results.*1)
           (captcha_path st)) ∧
    String.length (join results.*2) ≤ 6 ∧
    (String.length (join results.*2) = 6 ↔
     Forall (λ r, (0 < r.1)%Q) results).
Proof.
  intros Hfile Hshape Hlen.
  destruct (solve_positions_spec numpy self
              (bool_mul (np_greater (np_array_of_image
                 (Image_resize resample pic 70 20)) 128) 255)
              (range 6) [] eq_refl eq_refl) as (results & Hall & Hrun & Hlabels);
    [|done|done|].
  { unfold range. simpl. repeat constructor; lia. }
  exists results. split; [done|].
  pose proof (Forall2_length _ _ _ Hall) as Hsix. simpl in Hsix.
  destruct (join_length results Hlabels) as [Hle Hfull].
  rewrite <- Hsix in Hle, Hfull. split; [|done].
  unfold solve, log_and_reraise, try_except, mbind, M_bind.
  rewrite (preprocess_ok resample path pic st Hfile), Hrun. simpl.
  now rewrite <- app_assoc.
Qed.

Lemma solve_survives_low_confidence_witness :
  ∃ results : list (Q * string),
    Forall2 (λ i r, ∀ st1,
        match_loop mismatch_raises two_white_templates
          (np_cols_slice
             (bool_mul (np_greater (np_array_of_image
                (Image_resize keep_pixels black_captcha 70 20)) 128) 255)
             (i * 10) (i * 10 + 10))
          (test_set two_white_templates) 0 (Finite 0, EmptyString) st1
        = (Ok (Finite r.1, r.2), st1)) (range 6) results ∧
    solve keep_pixels mismatch_raises two_white_templates "c.png"
        (disk_with "c.png" black_captcha)
      = (Ok (join results.*2),
         State (files (disk_with "c.png" black_captcha))
           (events (disk_with "c.png" black_captcha) ++
              io_image_open "c.png" ::
              low_confidence_warnings (range 6) results.*1)
           (captcha_path (disk_with "c.png" black_captcha))) ∧
    String.length (join results.*2) ≤ 6 ∧
    (String.length (join results.*2) = 6 ↔
     Forall (λ r, (0 < r.1)%Q) results).
Proof.
  apply (solve_survives_low_confidence keep_pixels mismatch_raises
           two_white_templates "c.png" black_captcha
           (disk_with "c.png" black_captcha)).
  - reflexivity.
  - intros t Ht. simpl in Ht.
    repeat (apply elem_of_cons in Ht as [->|Ht]; [reflexivity|]).
    inversion Ht.
  - simpl. lia.
Defined.

(** X5. With the library as shipped no decodable captcha is ever solved:
    the first comparison already meets operands of different shapes, and
    [solve] raises [ValueError] (NumPy from 1.25 on) or returns the empty
    string (older NumPy), whatever the image shows. *)
Lemma shipped_solve_outcome resample path pic st :
  files st !! path = Some (Image_file pic) →
  (solve resample mismatch_raises CaptchaSolver_init path st).1
    = Raise ValueError ∧
  (solve resample mismatch_is_False CaptchaSolver_init path st).1
    = Ok EmptyString.
Proof.
  intros Hfile.
  unfold solve, log_and_reraise, try_except, mbind, M_bind.
  rewrite (preprocess_ok resample path pic st Hfile).
  split; reflexivity.
Qed.

(** C1, counterexample. On a decodable captcha the solver as shipped
    raises [ValueError] (NumPy from 1.25 on) or returns the empty string
    (older NumPy): each cell is 20 by 10 and the template 10 by 8. And with
    templates of the shape of the cells, the black captcha scores 0 at
    every position, no label is chosen, and the solution is the empty
    string. None of the three is a string of 6 characters. *)
Lemma solve_does_not_always_return_six_characters :
  (solve keep_pixels mismatch_raises CaptchaSolver_init "c.png"
     (disk_with "c.png" white_captcha)).1 = Raise ValueError ∧
  (solve keep_pixels mismatch_is_False CaptchaSolver_init "c.png"
     (disk_with "c.png" white_captcha)).1 = Ok EmptyString ∧
  (∀ numpy,
     (solve keep_pixels numpy two_white_templates "c.png"
        (disk_with "c.png" black_captcha)).1 = Ok EmptyString) ∧
  String.length EmptyString ≠ 6.
Proof.
  split; [vm_compute; reflexivity|]. split; [vm_compute; reflexivity|].
  split; [intros []; vm_compute; reflexivity | discriminate].
Qed.

(** ** The empty library *)

(** C3 (as amended). An empty template library is no error. [solve] opens
    the image first; if that fails, the image error is what it raises;
    otherwise it logs a low-confidence warning for each of the 6 positions
    and returns the empty string. *)
Theorem solve_with_no_templates resample numpy self path st :
  test_set self = [] →
  ∃ r rest,
    solve resample numpy self path st
      = (r, State (files st) (events st ++ io_image_open path :: rest)
                  (captcha_path st)) ∧
    match files st !! path with
    | Some (Image_file _) =>
        r = Ok EmptyString ∧
        rest = map log_warning_low_confidence (range 6)
    | Some Garbage_file => r = Raise UnidentifiedImageError
    | None => r = Raise FileNotFoundError
    end.
Proof.
  intros Hempty.
  unfold solve, _preprocess_image, log_and_reraise, try_except, mbind,
    M_bind, Image_open_L.
  destruct (files st !! path) as [[pic|]|]; simpl.
  - unfold solve_position, mbind, M_bind. rewrite Hempty. simpl.
    eexists _, _. split; [|split; reflexivity].
    now rewrite <- !app_assoc.
  - eexists _, _. split; [|reflexivity]. now rewrite <- !app_assoc.
  - eexists _, _. split; [|reflexivity]. now rewrite <- !app_assoc.
Qed.

Lemma solve_with_no_templates_witness :
  ∃ r rest,
    solve keep_pixels mismatch_raises no_templates "c.png"
        (disk_with "c.png" white_captcha)
      = (r, State (files (disk_with "c.png" white_captcha))
                  (events (disk_with "c.png" white_captcha) ++
                     io_image_open "c.png" :: rest)
                  (captcha_path (disk_with "c.png" white_captcha))) ∧
    match files (disk_with "c.png" white_captcha) !! "c.png" with
    | Some (Image_file _) =>
        r = Ok EmptyString ∧
        rest = map log_warning_low_confidence (range 6)
    | Some Garbage_file => r = Raise UnidentifiedImageError
    | None => r = Raise FileNotFoundError
    end.
Proof.
  apply (solve_with_no_templates keep_pixels mismatch_raises no_templates
           "c.png" (disk_with "c.png" white_captcha)).
  reflexivity.
Defined.

(** C3, counterexample. With an empty library and a decodable image,
    [solve] raises nothing: it opens the image, warns six times, and
    returns the empty string. *)
Lemma solve_with_no_templates_reads_the_image_and_returns :
  solve keep_pixels mismatch_raises no_templates "c.png"
    (disk_with "c.png" white_captcha)
  = (Ok EmptyString,
     State {[ "c.png" := Image_file white_captcha ]}
       [io_image_open "c.png";
        log_warning_low_confidence 0; log_warning_low_confidence 1;
        log_warning_low_confidence 2; log_warning_low_confidence 3;
        log_warning_low_confidence 4; log_warning_low_confidence 5]
       None) ∧
  (solve keep_pixels mismatch_is_False no_templates "c.png"
     (disk_with "c.png" white_captcha)).1 = Ok EmptyString.
Proof. split; reflexivity. Qed.

(** ** Effects of the solver: it only appends to the log *)

Lemma only_logs_ret {A} (a : A) : only_logs (mret a).
Proof. now intros st. Qed.

Lemma only_logs_raise {A} e : only_logs (@raise A e).
Proof. now intros st. Qed.

Lemma only_logs_emit ev : only_logs (emit ev).
Proof. now intros st. Qed.

Lemma only_logs_bind {A B} (m : M A) (f : A → M B) :
  only_logs m → (∀ a, only_logs (f a)) → only_logs (m ≫= f).
Proof.
  intros Hm Hf st. unfold mbind, M_bind. specialize (Hm st).
  destruct (m st) as [[a|e] st1]; simpl in *; [|done].
  destruct (Hf a st1) as [-> ->]. done.
Qed.

Lemma only_logs_try_except {A} (m : M A) h :
  only_logs m → (∀ e, only_logs (h e)) → only_logs (try_except m h).
Proof.
  intros Hm Hh st. unfold try_except. specialize (Hm st).
  destruct (m st) as [[a|e] st1]; simpl in *; [done|].
  destruct (Hh e st1) as [-> ->]. done.
Qed.

Lemma only_logs_reraise {A} msg (m : M A) :
  only_logs m → only_logs (log_and_reraise msg m).
Proof.
  intros Hm. apply only_logs_try_except; [done|]. intros e.
  apply only_logs_bind; [apply only_logs_emit|]. intros _.
  apply only_logs_raise.
Qed.

Lemma only_logs_image_open path : only_logs (Image_open_L path).
Proof.
  intros st. unfold Image_open_L.
  now destruct (files st !! path) as [[pic|]|].
Qed.

Lemma only_logs_str_index s idx : only_logs (str_index s idx).
Proof.
  unfold str_index. destruct (String.get idx s);
    [apply only_logs_ret | apply only_logs_raise].
Qed.

Lemma only_logs_preprocess resample path :
  only_logs (_preprocess_image resample path).
Proof.
  apply only_logs_reraise, only_logs_bind; [apply only_logs_image_open|].
  intros img. apply only_logs_ret.
Qed.

Lemma only_logs_extract matrix position :
  only_logs (_extract_character matrix position).
Proof. apply only_logs_reraise, only_logs_ret. Qed.

Lemma only_logs_calculate numpy a b :
  only_logs (_calculate_match_percentage numpy a b).
Proof.
  apply only_logs_reraise, only_logs_bind.
  - destruct (np_equal a b); [apply only_logs_ret|].
    destruct numpy; [apply only_logs_raise | apply only_logs_ret].
  - intros n. apply only_logs_ret.
Qed.

Lemma only_logs_match_loop numpy self cell ts : ∀ idx best,
  only_logs (match_loop numpy self cell ts idx best).
Proof.
  induction ts as [|t ts IH]; intros idx best; simpl.
  - apply only_logs_ret.
  - apply only_logs_bind; [apply only_logs_calculate|]. intros p.
    apply only_logs_bind; [|intros best'; apply IH].
    destruct (np_gt p best.1); [|apply only_logs_ret].
    apply only_logs_bind; [apply only_logs_str_index|].
    intros c. apply only_logs_ret.
Qed.

Lemma only_logs_solve_position numpy self matrix i :
  only_logs (solve_position numpy self matrix i).
Proof.
  apply only_logs_bind; [apply only_logs_extract|]. intros cell.
  apply only_logs_bind; [apply only_logs_match_loop|]. intros best.
  apply only_logs_bind; [|intros _; apply only_logs_ret].
  destruct (np_lt best.1 (Finite 50));
    [apply only_logs_emit | apply only_logs_ret].
Qed.

Lemma only_logs_solve_positions numpy self matrix positions : ∀ result,
  only_logs (solve_positions numpy self matrix positions result).
Proof.
  induction positions as [|i positions IH]; intros result; simpl.
  - apply only_logs_ret.
  - apply only_logs_bind; [apply only_logs_solve_position|].
    intros c. apply IH.
Qed.

Lemma only_logs_solve resample numpy self path :
  only_logs (solve resample numpy self path).
Proof.
  apply only_logs_reraise, only_logs_bind; [apply only_logs_preprocess|].
  intros matrix.
  apply only_logs_bind; [apply only_logs_solve_positions|].
  intros result. apply only_logs_ret.
Qed.

(** ** The login loop *)

(** What the [try] suite of one attempt does to the file system and to
    [captcha_path]: either it fails before the assignment and touches
    neither, or [captcha_path] names this attempt's file and no other path
    of the file system has changed. *)
Lemma login_try_effect resample numpy self env username password
    attempt max_retries st r st1 :
  login_try resample numpy self env username password attempt max_retries st
    = (r, st1) →
  (r = Ok (Return_ true) ∨ ∃ e, r = Raise e) ∧
  ((captcha_path st1 = captcha_path st ∧ files st1 = files st) ∨
   (captcha_path st1 = Some (temp_captcha attempt) ∧
    ∀ p, p ≠ temp_captcha attempt → files st1 !! p = files st !! p)).
Proof.
  intros H.
  unfold login_try, mbind, M_bind, emit, driver_call, assign_captcha_path,
    read_captcha_path, screenshot_to, mret, M_ret, raise in H.
  step_in H;
    try match goal with
        | Hs : solve ?a ?b ?c ?d ?s = (_, _) |- _ =>
            pose proof (only_logs_solve a b c d s) as Hframe;
            rewrite Hs in Hframe; simpl in Hframe;
            destruct Hframe as [? ?]; clear Hs
        end;
    simplify_eq; simpl in *;
    (split; [eauto|]); try (left; split; congruence);
    right; (split; [congruence|]); intros p Hp;
    repeat match goal with Hf : files _ = _ |- _ => rewrite Hf end;
    simpl; rewrite ?lookup_insert_ne by done; done.
Qed.

Lemma login_except_effect attempt max_retries e st :
  ∃ st1,
    login_except attempt max_retries e st
      = (if (attempt =? max_retries - 1)%Z then Raise e else Ok Continue_,
         st1) ∧
    files st1 = files st ∧ captcha_path st1 = captcha_path st.
Proof.
  unfold login_except, mbind, M_bind, emit, raise, mret, M_ret.
  destruct (is_timeout e), (attempt =? max_retries - 1)%Z; simpl;
    (eexists; split; [reflexivity | done]).
Qed.

(** The [finally] clause: with [captcha_path] unbound it raises and
    changes nothing; otherwise it completes, the named file is gone and no
    other path has changed. *)
Lemma login_finally_effect st :
  match captcha_path st with
  | None => login_finally st = (Raise UnboundLocalError, st)
  | Some p =>
      ∃ st1, login_finally st = (Ok tt, st1) ∧
        captcha_path st1 = Some p ∧
        files st1 !! p = None ∧
        ∀ q, q ≠ p → files st1 !! q = files st !! q
  end.
Proof.
  unfold login_finally, mbind, M_bind, read_captcha_path, os_path_exists,
    os_remove, mret, M_ret.
  destruct (captcha_path st) as [p|] eqn:Hp; [|done].
  destruct (files st !! p) as [f|] eqn:Hf; simpl.
  - rewrite Hp, Hf.
    eexists. split; [done|]. simpl. split; [done|].
    split; [apply lookup_delete_eq|]. intros q Hq.
    now apply lookup_delete_ne.
  - exists st. repeat split; done.
Qed.

(** One pass through the loop body. *)
Lemma login_attempt_summary resample numpy self env username password
    attempt max_retries st :
  ∃ r st',
    login_attempt resample numpy self env username password
      attempt max_retries st = (r, st') ∧
    (r = Ok (Return_ true) ∨
     (r = Ok Continue_ ∧ attempt ≠ (max_retries - 1)%Z) ∨
     ∃ e, r = Raise e) ∧
    (∀ p, captcha_path st' = Some p → files st' !! p = None) ∧
    (captcha_path st' = Some (temp_captcha attempt) ∨
     captcha_path st' = captcha_path st) ∧
    (∀ p, files st !! p = None → files st' !! p = None).
Proof.
  unfold login_attempt, try_finally, try_except.
  destruct (login_try resample numpy self env username password attempt
              max_retries st) as [r0 st0] eqn:Htry.
  apply login_try_effect in Htry as [Hres Heff].
  assert (Hmid : ∃ r1 st1,
    match r0 with
    | Ok a => (Ok a, st0)
    | Raise e => login_except attempt max_retries e st0
    end = (r1, st1) ∧
    files st1 = files st0 ∧ captcha_path st1 = captcha_path st0 ∧
    (r1 = Ok (Return_ true) ∨
     (r1 = Ok Continue_ ∧ attempt ≠ (max_retries - 1)%Z) ∨
     ∃ e, r1 = Raise e)).
  { destruct Hres as [->|[e ->]]; [by eauto 10|].
    destruct (login_except_effect attempt max_retries e st0)
      as (st1 & -> & Hf & Hc).
    eexists _, st1. split; [done|]. split; [done|]. split; [done|].
    destruct (Z.eqb_spec attempt (max_retries - 1)); eauto. }
  destruct Hmid as (r1 & st1 & -> & Hf1 & Hc1 & Hres1).
  pose proof (login_finally_effect st1) as Hfin.
  destruct (captcha_path st1) as [p|] eqn:Hp.
  - destruct Hfin as (st2 & -> & Hc2 & Hgone & Hother).
    exists r1, st2. split; [done|]. split; [done|].
    split; [intros q; rewrite Hc2; intros [= <-]; done|].
    split.
    { rewrite Hc2. destruct Heff as [[Hc0 _]|[Hc0 _]]; [right | left];
        congruence. }
    intros q Hq. destruct (decide (q = p)) as [->|Hne]; [done|].
    rewrite Hother, Hf1 by done.
    destruct Heff as [[_ ->]|[Hc0 Hfiles]]; [done|].
    destruct (decide (q = temp_captcha attempt)) as [->|Hne'].
    + congruence.
    + now rewrite Hfiles.
  - rewrite Hfin. exists (Raise UnboundLocalError), st1.
    split; [done|]. split; [eauto|].
    split; [intros q; rewrite Hp; done|].
    split; [right; destruct Heff as [[Hc0 _]|[Hc0 _]]; congruence|].
    intros q Hq. rewrite Hf1.
    destruct Heff as [[_ ->]|[Hc0 _]]; [done | congruence].
Qed.

Lemma login_loop_keeps_absent resample numpy self driver username password
    max_retries attempts : ∀ st p,
  files st !! p = None →
  files (login_loop resample numpy self driver username password
           max_retries attempts st).2 !! p = None.
Proof.
  induction attempts as [|attempt rest IH]; intros st p Hp; [done|].
  simpl. unfold mbind, M_bind.
  destruct (login_attempt_summary resample numpy self (driver attempt)
              username password attempt max_retries st)
    as (r & st' & -> & _ & _ & _ & Hkeep).
  destruct r as [[b|]|e]; simpl; auto.
Qed.

Lemma login_loop_outcome resample numpy self driver username password
    max_retries : ∀ k a st,
  0 < k → Z.of_nat (a + k) = max_retries →
  (∃ st', login_loop resample numpy self driver username password
            max_retries (map Z.of_nat (seq a k)) st = (Ok true, st')) ∨
  (∃ e st', login_loop resample numpy self driver username password
              max_retries (map Z.of_nat (seq a k)) st = (Raise e, st')).
Proof.
  induction k as [|k IH]; intros a st Hk Hmax; [lia|].
  simpl. unfold mbind, M_bind.
  destruct (login_attempt_summary resample numpy self (driver (Z.of_nat a))
              username password (Z.of_nat a) max_retries st)
    as (r & st' & -> & Hres & _).
  destruct Hres as [->|[[-> Hnotlast]|[e ->]]]; simpl; [eauto | | eauto].
  apply IH; lia.
Qed.

(** What the cleanup does achieve. Whatever way an attempt ends (return,
    loop-back, or an exception raised anywhere in it, before the capture
    included), a path that held no file when the attempt began holds none
    when it ends, and once [captcha_path] names the attempt's file that
    file is gone even if one of that name was there before. The same holds
    of a whole call of [login]. *)
Theorem captcha_image_absent_after_every_attempt
    resample numpy self username password max_retries :
  (∀ env attempt st,
     ∃ r st',
       login_attempt resample numpy self env username password
         attempt max_retries st = (r, st') ∧
       (files st !! temp_captcha attempt = None →
        files st' !! temp_captcha attempt = None) ∧
       (captcha_path st' = Some (temp_captcha attempt) →
        files st' !! temp_captcha attempt = None) ∧
       (∀ p, files st !! p = None → files st' !! p = None)) ∧
  (∀ driver st p,
     files st !! p = None →
     files (login resample numpy self driver username password
              max_retries st).2 !! p = None).
Proof.
  split.
  - intros env attempt st.
    destruct (login_attempt_summary resample numpy self env username
                password attempt max_retries st)
      as (r & st' & Hrun & _ & Hgone & _ & Hkeep).
    exists r, st'. repeat split; auto.
  - intros driver st p Hp. unfold login, mbind, M_bind, enter_login.
    now apply login_loop_keeps_absent.
Qed.

Lemma captcha_image_absent_after_every_attempt_witness :
  files (login_attempt keep_pixels mismatch_is_False CaptchaSolver_init
           dashboard_never_shows "user" "secret" 0 3 empty_disk).2
    !! temp_captcha 0 = None.
Proof.
  destruct (proj1 (captcha_image_absent_after_every_attempt keep_pixels
              mismatch_is_False CaptchaSolver_init "user" "secret" 3)
              dashboard_never_shows 0%Z empty_disk)
    as (r & st' & Hrun & Hfresh & _).
  rewrite Hrun. apply Hfresh. reflexivity.
Defined.

(** C5. An attempt that fails before the capture leaves a captcha image of
    its number where it was: [captcha_path] is assigned only at the
    capture, so the cleanup looks at no file (first attempt, where it
    raises [UnboundLocalError]) or at the file of an earlier attempt.
    With a file [temp_captcha_0.png] in the working directory and a login
    form that never renders, [login] raises after one attempt and the
    file is still there. With a file [temp_captcha_1.png] and a form that
    renders in the first attempt only, [login] makes its three attempts,
    removes the capture of the first, raises the timeout of the third,
    and the file of the second attempt has been there throughout. *)
Theorem stale_captcha_image_survives_login numpy :
  (∃ st',
     login keep_pixels numpy CaptchaSolver_init (λ _, form_never_renders)
       "user" "secret" 3 stale_first_capture
       = (Raise UnboundLocalError, st') ∧
     attempts_made (events st') = 1 ∧
     files st' !! temp_captcha 0 = Some (Image_file black_captcha)) ∧
  (∃ st',
     login keep_pixels numpy CaptchaSolver_init form_renders_once
       "user" "secret" 3 stale_second_capture
       = (Raise TimeoutException, st') ∧
     attempts_made (events st') = 3 ∧
     files st' !! temp_captcha 0 = None ∧
     files st' !! temp_captcha 1 = Some (Image_file black_captcha)).
Proof.
  split; destruct numpy; (eexists; split; [vm_compute; reflexivity|]);
    vm_compute; repeat split.
Qed.




(** A first attempt that fails before [captcha_path] is assigned ends the
    whole call, whatever the budget of 2 or more: the handler loops back,
    and the [finally] clause raises on the unbound variable. *)
Lemma login_first_failure_before_capture resample numpy self driver
    username password max_retries st e :
  (2 ≤ max_retries)%Z →
  get_login_page (driver 0%Z) = Some e ∨
  (get_login_page (driver 0%Z) = None ∧
   (wait_username (driver 0%Z) = Some e ∨
    (wait_username (driver 0%Z) = None ∧
     find_captcha_image (driver 0%Z) = Some e))) →
  ∃ st',
    login resample numpy self driver username password max_retries st
      = (Raise UnboundLocalError, st') ∧
    attempts_made (events st') = S (attempts_made (events st)) ∧
    files st' = files st.
Proof.
  intros Hmax Hfail.
  assert (Hcount : ∀ evs ev, attempts_made (evs ++ [ev]) =
            attempts_made evs + attempts_made [ev]).
  { intros evs ev. induction evs as [|ev' evs IH]; [done|].
    destruct ev'; simpl in *; rewrite ?IH; done. }
  unfold login, range.
  destruct (Z.to_nat max_retries) as [|n] eqn:Hn; [lia|].
  unfold mbind, M_bind, enter_login; simpl.
  unfold mbind, M_bind, login_attempt, try_finally, try_except, login_try,
    login_except, login_finally, read_captcha_path, emit, driver_call,
    raise, mret, M_ret, mbind, M_bind.
  change (Z.of_nat 0) with 0%Z.
  destruct (Z.eqb_spec 0 (max_retries - 1)) as [|_]; [lia|].
  destruct Hfail as [Hg|[Hg [Hw|[Hw Hf]]]]; rewrite ?Hg, ?Hw, ?Hf; simpl;
    destruct (is_timeout e); simpl;
    (eexists; split; [reflexivity|]; simpl; split; [|done]);
    rewrite !Hcount; simpl; lia.
Qed.

(** C4. Every attempt fails because the login form never renders and the
    budget is the default 3: the first attempt's handler loops back, the
    [finally] clause then reads the still unbound [captcha_path], and
    [login] ends with [UnboundLocalError] after one attempt. *)
Theorem login_gives_up_after_one_attempt_when_the_form_never_renders numpy :
  ∃ st',
    login keep_pixels numpy CaptchaSolver_init (λ _, form_never_renders)
      "user" "secret" 3 empty_disk = (Raise UnboundLocalError, st') ∧
    events st' = [log_info_attempt 1 3; log_warning_timeout 1] ∧
    attempts_made (events st') = 1.
Proof. eexists. split; [reflexivity|]. split; reflexivity. Qed.

(** When the failures come after the capture, the loop does what it was
    written for: three attempts, and the third attempt's exception. *)
Lemma login_makes_three_attempts_when_the_dashboard_never_shows :
  ∃ st',
    login keep_pixels mismatch_is_False CaptchaSolver_init
      (λ _, dashboard_never_shows) "user" "secret" 3 empty_disk
    = (Raise TimeoutException, st') ∧
    attempts_made (events st') = 3 ∧
    files st' = ∅.
Proof. eexists. split; [vm_compute; reflexivity|]. split; reflexivity. Qed.

(** ** More on the solver *)

Lemma attempts_made_app evs1 evs2 :
  attempts_made (evs1 ++ evs2) = attempts_made evs1 + attempts_made evs2.
Proof.
  induction evs1 as [|ev evs1 IH]; [done|].
  destruct ev; simpl; rewrite ?IH; done.
Qed.

Lemma logs_no_attempt_ret {A} (a : A) : logs_no_attempt (mret a).
Proof. intros st. exists []. now rewrite app_nil_r. Qed.

Lemma logs_no_attempt_raise {A} e : logs_no_attempt (@raise A e).
Proof. intros st. exists []. now rewrite app_nil_r. Qed.

Lemma logs_no_attempt_emit ev :
  attempts_made [ev] = 0 → logs_no_attempt (emit ev).
Proof. intros Hev st. now exists [ev]. Qed.

Lemma logs_no_attempt_bind {A B} (m : M A) (f : A → M B) :
  logs_no_attempt m → (∀ a, logs_no_attempt (f a)) →
  logs_no_attempt (m ≫= f).
Proof.
  intros Hm Hf st. unfold mbind, M_bind.
  destruct (Hm st) as (evs1 & Hevs1 & Hnone1).
  destruct (m st) as [[a|e] st1]; simpl in *; [|eauto].
  destruct (Hf a st1) as (evs2 & Hevs2 & Hnone2).
  exists (evs1 ++ evs2). rewrite Hevs2, Hevs1, attempts_made_app, <- app_assoc.
  split; [done | lia].
Qed.

Lemma logs_no_attempt_try_except {A} (m : M A) h :
  logs_no_attempt m → (∀ e, logs_no_attempt (h e)) →
  logs_no_attempt (try_except m h).
Proof.
  intros Hm Hh st. unfold try_except.
  destruct (Hm st) as (evs1 & Hevs1 & Hnone1).
  destruct (m st) as [[a|e] st1]; simpl in *; [eauto|].
  destruct (Hh e st1) as (evs2 & Hevs2 & Hnone2).
  exists (evs1 ++ evs2). rewrite Hevs2, Hevs1, attempts_made_app, <- app_assoc.
  split; [done | lia].
Qed.

Lemma logs_no_attempt_reraise {A} msg (m : M A) :
  (∀ e, attempts_made [msg e] = 0) →
  logs_no_attempt m → logs_no_attempt (log_and_reraise msg m).
Proof.
  intros Hmsg Hm. apply logs_no_attempt_try_except; [done|]. intros e.
  apply logs_no_attempt_bind; [now apply logs_no_attempt_emit|].
  intros _. apply logs_no_attempt_raise.
Qed.

Lemma logs_no_attempt_match_loop numpy self cell ts : ∀ idx best,
  logs_no_attempt (match_loop numpy self cell ts idx best).
Proof.
  induction ts as [|t ts IH]; intros idx best; simpl.
  - apply logs_no_attempt_ret.
  - apply logs_no_attempt_bind.
    + apply logs_no_attempt_reraise; [done|].
      apply logs_no_attempt_bind.
      * destruct (np_equal cell t); [apply logs_no_attempt_ret|].
        destruct numpy;
          [apply logs_no_attempt_raise | apply logs_no_attempt_ret].
      * intros n. apply logs_no_attempt_ret.
    + intros p. apply logs_no_attempt_bind; [|intros best'; apply IH].
      destruct (np_gt p best.1); [|apply logs_no_attempt_ret].
      apply logs_no_attempt_bind; [|intros c; apply logs_no_attempt_ret].
      unfold str_index. destruct (String.get idx (char_map self));
        [apply logs_no_attempt_ret | apply logs_no_attempt_raise].
Qed.

Lemma logs_no_attempt_solve_positions numpy self matrix positions :
  ∀ result,
  logs_no_attempt (solve_positions numpy self matrix positions result).
Proof.
  induction positions as [|i positions IH]; intros result; simpl.
  - apply logs_no_attempt_ret.
  - apply logs_no_attempt_bind; [|intros c; apply IH].
    apply logs_no_attempt_bind.
    { apply logs_no_attempt_reraise; [done | apply logs_no_attempt_ret]. }
    intros cell.
    apply logs_no_attempt_bind; [apply logs_no_attempt_match_loop|].
    intros best.
    apply logs_no_attempt_bind; [|intros _; apply logs_no_attempt_ret].
    destruct (np_lt best.1 (Finite 50));
      [now apply logs_no_attempt_emit | apply logs_no_attempt_ret].
Qed.

Lemma logs_no_attempt_solve resample numpy self path :
  logs_no_attempt (solve resample numpy self path).
Proof.
  apply logs_no_attempt_reraise; [done|].
  apply logs_no_attempt_bind.
  - apply logs_no_attempt_reraise; [done|].
    apply logs_no_attempt_bind; [|intros img; apply logs_no_attempt_ret].
    intros st. exists [io_image_open path]. unfold Image_open_L.
    now destruct (files st !! path) as [[pic|]|].
  - intros matrix.
    apply logs_no_attempt_bind; [apply logs_no_attempt_solve_positions|].
    intros result. apply logs_no_attempt_ret.
Qed.

(** X1. A captcha file that is missing, or that is no image, makes [solve]
    raise the error of [Image.open] unchanged, whatever the library: the
    error is logged by [_preprocess_image] and again by [solve], and no
    position is classified. *)
Theorem solve_propagates_image_errors resample numpy self path st :
  (files st !! path = None →
   solve resample numpy self path st
   = (Raise FileNotFoundError,
      State (files st)
        (events st ++ [io_image_open path;
                       log_error_preprocess FileNotFoundError;
                       log_error_solve FileNotFoundError])
        (captcha_path st))) ∧
  (files st !! path = Some Garbage_file →
   solve resample numpy self path st
   = (Raise UnidentifiedImageError,
      State (files st)
        (events st ++ [io_image_open path;
                       log_error_preprocess UnidentifiedImageError;
                       log_error_solve UnidentifiedImageError])
        (captcha_path st))).
Proof.
  unfold solve, _preprocess_image, log_and_reraise, try_except, mbind,
    M_bind, Image_open_L.
  split; intros ->; simpl; now rewrite <- !app_assoc.
Qed.

Lemma solve_propagates_image_errors_witness :
  solve keep_pixels mismatch_raises CaptchaSolver_init "c.png" empty_disk
  = (Raise FileNotFoundError,
     State ∅ [io_image_open "c.png";
              log_error_preprocess FileNotFoundError;
              log_error_solve FileNotFoundError] None) ∧
  solve keep_pixels mismatch_raises CaptchaSolver_init "c.png"
    (disk_with_garbage "c.png")
  = (Raise UnidentifiedImageError,
     State {[ "c.png" := Garbage_file ]}
       [io_image_open "c.png";
        log_error_preprocess UnidentifiedImageError;
        log_error_solve UnidentifiedImageError] None).
Proof.
  split.
  - apply (proj1 (solve_propagates_image_errors keep_pixels mismatch_raises
                    CaptchaSolver_init "c.png" empty_disk)).
    reflexivity.
  - apply (proj2 (solve_propagates_image_errors keep_pixels mismatch_raises
                    CaptchaSolver_init "c.png" (disk_with_garbage "c.png"))).
    reflexivity.
Defined.

(** X2. [solve] reads the captcha file and writes nothing: whatever the
    library, the image and the outcome, the file system and [login]'s
    [captcha_path] are as before, and the log is the old log with lines
    added at its end. *)
Theorem solve_touches_only_the_log resample numpy self path st :
  files (solve resample numpy self path st).2 = files st ∧
  captcha_path (solve resample numpy self path st).2 = captcha_path st ∧
  ∃ evs, events (solve resample numpy self path st).2 = events st ++ evs.
Proof.
  destruct (only_logs_solve resample numpy self path st) as [Hf Hc].
  destruct (logs_no_attempt_solve resample numpy self path st)
    as (evs & Hevs & _).
  eauto.
Qed.

Lemma shipped_solve_outcome_witness :
  (solve keep_pixels mismatch_raises CaptchaSolver_init "c.png"
     (disk_with "c.png" ramp_captcha)).1 = Raise ValueError ∧
  (solve keep_pixels mismatch_is_False CaptchaSolver_init "c.png"
     (disk_with "c.png" ramp_captcha)).1 = Ok EmptyString.
Proof.
  apply (shipped_solve_outcome keep_pixels "c.png" ramp_captcha
           (disk_with "c.png" ramp_captcha)).
  reflexivity.
Defined.

Lemma match_percentage_le a b :
  0 < size a → (match_percentage a b <= 100)%Q.
Proof.
  intros Hsize. unfold match_percentage.
  apply percent_bounds; [done | apply matching_pixels_le].
Qed.

Lemma match_percentage_full a b :
  0 < size a → (match_percentage a b == 100)%Q ↔ pixel_identical a b.
Proof.
  intros Hsize. unfold match_percentage.
  rewrite percent_full by done. apply matching_pixels_full.
Qed.

(** X3. A cell that is pixel-identical to a template is given that
    template's label with a score of 100, provided no earlier template of
    the library is identical to the cell too. *)
Theorem exact_match_wins numpy self cell k t ch :
  (∀ t', t' ∈ test_set self → shape cell = shape t') →
  0 < size cell →
  length (test_set self) ≤ String.length (char_map self) →
  test_set self !! k = Some t →
  pixel_identical cell t →
  (∀ j t', j < k → test_set self !! j = Some t' →
           ¬ pixel_identical cell t') →
  String.get k (char_map self) = Some ch →
  ∃ top,
    (top == 100)%Q ∧
    ∀ st, match_loop numpy self cell (test_set self) 0
            (Finite 0, EmptyString) st
          = (Ok (Finite top, String ch EmptyString), st).
Proof.
  intros Hshape Hsize Hlen Hk Hsame Hfirst Hch.
  destruct (match_loop_spec numpy self cell (test_set self) 0 0%Q EmptyString
              Hshape Hsize Hlen) as (top & label & Hrun & Hall & Hcase).
  assert (Hfull : (match_percentage cell t == 100)%Q)
    by now apply match_percentage_full.
  assert (Hge : (100 <= top)%Q).
  { rewrite <- Hfull. apply Hall. eapply list_elem_of_lookup_2, Hk. }
  destruct Hcase as [[-> _]|(_ & i & ti & chi & Hi & Hp & Hbefore & Hget & ->)].
  { exfalso. revert Hge. unfold Qle. simpl. lia. }
  assert (Htop : (top == 100)%Q).
  { apply Qle_antisym; [|done]. rewrite <- Hp.
    now apply match_percentage_le. }
  exists top. split; [done|].
  assert (i = k) as ->.
  { destruct (lt_eq_lt_dec i k) as [[Hlt|]|Hgt]; [|done|].
    - exfalso. apply (Hfirst i ti Hlt Hi).
      apply match_percentage_full; [done|]. now rewrite Hp.
    - exfalso. pose proof (Hbefore k t Hgt Hk) as Hless.
      rewrite Hfull, Htop in Hless. now apply Qlt_irrefl in Hless. }
  simpl in Hget. rewrite Hch in Hget. injection Hget as <-. exact Hrun.
Qed.

Lemma exact_match_wins_witness :
  ∃ top,
    (top == 100)%Q ∧
    ∀ st, match_loop mismatch_raises two_white_templates white_cell
            (test_set two_white_templates) 0 (Finite 0, EmptyString) st
          = (Ok (Finite top, String "0" EmptyString), st).
Proof.
  apply (exact_match_wins mismatch_raises two_white_templates white_cell
           0 white_cell "0"%char).
  - intros t Ht. simpl in Ht.
    repeat (apply elem_of_cons in Ht as [->|Ht]; [reflexivity|]).
    inversion Ht.
  - unfold size. simpl. lia.
  - simpl. lia.
  - reflexivity.
  - intros r c _ _. reflexivity.
  - intros j t' Hj. lia.
  - reflexivity.
Defined.

Lemma string_get_past_end s : ∀ idx,
  String.length s ≤ idx → String.get idx s = None.
Proof.
  induction s as [|a s IH]; simpl; intros idx Hidx; [now destruct idx|].
  destruct idx as [|idx]; [lia|]. apply IH. lia.
Qed.

Lemma match_loop_app numpy self cell ts1 : ∀ ts2 idx best st,
  match_loop numpy self cell (ts1 ++ ts2) idx best st
  = (best' ← match_loop numpy self cell ts1 idx best;
     match_loop numpy self cell ts2 (idx + length ts1) best') st.
Proof.
  induction ts1 as [|t ts1 IH]; intros ts2 idx best st; simpl.
  - unfold mbind, M_bind, mret, M_ret. now rewrite Nat.add_0_r.
  - unfold mbind, M_bind.
    destruct (_calculate_match_percentage numpy cell t st) as [[p|e] st1];
      [|done].
    match goal with
    | |- context [match ?m st1 with _ => _ end] =>
        destruct (m st1) as [[best'|e] st2]; [|done]
    end.
    rewrite IH. unfold mbind, M_bind. now rewrite Nat.add_succ_r.
Qed.

(** Beyond the last character of [char_map] every improvement of the
    running best is an [IndexError]. *)
Lemma match_loop_past_char_map numpy self cell ts : ∀ idx best label t,
  (∀ t', t' ∈ ts → shape cell = shape t') → 0 < size cell →
  String.length (char_map self) ≤ idx →
  t ∈ ts → (best < match_percentage cell t)%Q →
  ∀ st, match_loop numpy self cell ts idx (Finite best, label) st
        = (Raise IndexError, st).
Proof.
  induction ts as [|t0 ts IH]; intros idx best label t Hshape Hsize Hidx Ht
    Hbetter st; [inversion Ht|].
  simpl. unfold mbind, M_bind at 1.
  rewrite calculate_same_shape by (try apply Hshape; try left; done).
  simpl. destruct (Qlt_bool best (match_percentage cell t0)) eqn:Hcmp.
  - unfold mbind, M_bind, str_index.
    now rewrite string_get_past_end.
  - unfold mbind, M_bind, mret, M_ret.
    apply Qlt_bool_false in Hcmp.
    apply elem_of_cons in Ht as [->|Ht].
    + exfalso. now apply Qlt_not_le in Hbetter.
    + apply (IH (S idx) best label t); try done; [|lia].
      intros t' Ht'. apply Hshape. now right.
Qed.

(** X4. [char_map] has 36 characters. When a library of the cell's shape
    has more templates than [char_map] has characters, and one of the
    templates past the end scores above 0 and strictly above every
    template that has a character, classification raises [IndexError]. *)
Theorem classify_raises_past_char_map numpy self cell first rest t :
  test_set self = first ++ rest →
  length first = String.length (char_map self) →
  (∀ t', t' ∈ test_set self → shape cell = shape t') →
  0 < size cell →
  t ∈ rest →
  (0 < match_percentage cell t)%Q →
  (∀ t', t' ∈ first → (match_percentage cell t' < match_percentage cell t)%Q) →
  ∀ st, match_loop numpy self cell (test_set self) 0
          (Finite 0, EmptyString) st
        = (Raise IndexError, st).
Proof.
  intros Hsplit Hlen Hshape Hsize Ht Hpos Hbetter st.
  rewrite Hsplit in *. rewrite match_loop_app.
  destruct (match_loop_spec numpy self cell first 0 0%Q EmptyString)
    as (top & label & Hrun & _ & Hcase); [|done|lia|].
  { intros t' Ht'. apply Hshape, elem_of_app. now left. }
  unfold mbind, M_bind. rewrite Hrun.
  apply (match_loop_past_char_map numpy self cell rest _ top label t);
    try done; [|lia|].
  - intros t' Ht'. apply Hshape, elem_of_app. now right.
  - destruct Hcase as [[-> _]|(_ & i & ti & _ & Hi & <- & _)]; [done|].
    apply Hbetter. eapply list_elem_of_lookup_2, Hi.
Qed.

Lemma classify_raises_past_char_map_witness :
  match_loop mismatch_raises thirty_six_black_one_white white_cell
    (test_set thirty_six_black_one_white) 0 (Finite 0, EmptyString)
    empty_disk
  = (Raise IndexError, empty_disk).
Proof.
  generalize empty_disk.
  apply (classify_raises_past_char_map mismatch_raises
           thirty_six_black_one_white white_cell
           (replicate 36 black_cell) [white_cell] white_cell).
  - reflexivity.
  - reflexivity.
  - intros t Ht. simpl in Ht.
    repeat (apply elem_of_cons in Ht as [->|Ht]; [reflexivity|]).
    inversion Ht.
  - unfold size. simpl. lia.
  - apply list_elem_of_singleton. reflexivity.
  - vm_compute. reflexivity.
  - intros t Ht. apply elem_of_replicate in Ht as [-> _].
    vm_compute. reflexivity.
Defined.

(** ** More on the login loop *)

(** The log of one pass through the loop body: one line opens the attempt,
    and nothing that follows opens another. *)
Lemma login_try_log resample numpy self env username password
    attempt max_retries st r st1 :
  login_try resample numpy self env username password attempt max_retries st
    = (r, st1) →
  ∃ evs,
    events st1
      = events st ++ log_info_attempt (attempt + 1) max_retries :: evs ∧
    attempts_made evs = 0.
Proof.
  intros H.
  unfold login_try, mbind, M_bind, emit, driver_call, assign_captcha_path,
    read_captcha_path, screenshot_to, mret, M_ret, raise in H.
  step_in H;
    try match goal with
        | Hs : solve ?a ?b ?c ?d ?s = (_, _) |- _ =>
            destruct (logs_no_attempt_solve a b c d s) as (evs0 & Hevs0 & ?);
            rewrite Hs in Hevs0; simpl in Hevs0; clear Hs
        end;
    simplify_eq; simpl in *; rewrite ?Hevs0, <- ?app_assoc; simpl;
    (eexists; split; [reflexivity|]).
  all: simpl; rewrite ?attempts_made_app; simpl; lia.
Qed.

Lemma login_attempt_log resample numpy self env username password
    attempt max_retries st :
  ∃ evs,
    events (login_attempt resample numpy self env username password
              attempt max_retries st).2
      = events st ++ log_info_attempt (attempt + 1) max_retries :: evs ∧
    attempts_made evs = 0.
Proof.
  unfold login_attempt, try_finally, try_except.
  destruct (login_try resample numpy self env username password attempt
              max_retries st) as [r0 st0] eqn:Htry.
  apply login_try_log in Htry as (evs0 & Hevs0 & Hnone0).
  assert (Hmid : ∃ r1 st1 evs1,
    match r0 with
    | Ok a => (Ok a, st0)
    | Raise e => login_except attempt max_retries e st0
    end = (r1, st1) ∧
    events st1 = events st0 ++ evs1 ∧ attempts_made evs1 = 0).
  { destruct r0 as [c|e].
    - exists (Ok c), st0, []. now rewrite app_nil_r.
    - unfold login_except, mbind, M_bind, emit, raise, mret, M_ret.
      destruct (is_timeout e), (attempt =? max_retries - 1)%Z; simpl;
        (eexists _, _, _; split; [reflexivity|]; simpl; split;
         [reflexivity | reflexivity]). }
  destruct Hmid as (r1 & st1 & evs1 & -> & Hevs1 & Hnone1).
  assert (Hfin : ∃ r2 st2 evs2,
    login_finally st1 = (r2, st2) ∧
    events st2 = events st1 ++ evs2 ∧ attempts_made evs2 = 0).
  { unfold login_finally, mbind, M_bind, read_captcha_path, os_path_exists,
      os_remove, mret, M_ret.
    destruct (captcha_path st1) as [p|] eqn:Hp; simpl.
    - destruct (files st1 !! p) eqn:Hf; simpl; rewrite ?Hp, ?Hf.
      + eexists _, _, _. split; [reflexivity|]. simpl.
        split; reflexivity.
      + exists (Ok tt), st1, []. now rewrite app_nil_r.
    - exists (Raise UnboundLocalError), st1, []. now rewrite app_nil_r. }
  destruct Hfin as (r2 & st2 & evs2 & -> & Hevs2 & Hnone2).
  exists (evs0 ++ evs1 ++ evs2).
  split; [|rewrite !attempts_made_app; lia].
  destruct r2; simpl; rewrite Hevs2, Hevs1, Hevs0, <- !app_assoc; done.
Qed.

Lemma login_attempt_counts resample numpy self env username password
    attempt max_retries st :
  attempts_made (events (login_attempt resample numpy self env username
                           password attempt max_retries st).2)
  = S (attempts_made (events st)).
Proof.
  destruct (login_attempt_log resample numpy self env username password
              attempt max_retries st) as (evs & -> & Hnone).
  rewrite attempts_made_app. simpl. lia.
Qed.

Lemma login_loop_counts resample numpy self driver username password
    max_retries attempts : ∀ st,
  attempts_made (events st) + (if attempts is [] then 0 else 1)
  ≤ attempts_made (events (login_loop resample numpy self driver username
                             password max_retries attempts st).2)
  ≤ attempts_made (events st) + length attempts.
Proof.
  induction attempts as [|attempt rest IH]; intros st; simpl; [lia|].
  unfold mbind, M_bind.
  pose proof (login_attempt_counts resample numpy self (driver attempt)
                username password attempt max_retries st) as Hone.
  destruct (login_attempt resample numpy self (driver attempt) username
              password attempt max_retries st) as [[[b|]|e] st1];
    simpl in *; try lia.
  specialize (IH st1). destruct rest; simpl in *; lia.
Qed.

(** X6. [login] never makes more attempts than its budget: the number of
    attempts it opens is at most [max_retries], at least one when the
    budget is one or more, and none when it is zero or negative. *)
Theorem login_attempts_within_budget
    resample numpy self driver username password max_retries st :
  attempts_made (events (login resample numpy self driver username password
                           max_retries st).2)
    ≤ attempts_made (events st) + Z.to_nat max_retries ∧
  ((1 ≤ max_retries)%Z →
   attempts_made (events st)
     < attempts_made (events (login resample numpy self driver username
                                password max_retries st).2)).
Proof.
  unfold login, mbind, M_bind, enter_login.
  pose proof (login_loop_counts resample numpy self driver username password
                max_retries (range max_retries)
                (State (files st) (events st) None)) as Hloop.
  unfold range in *. rewrite length_map, length_seq in Hloop.
  cbn [events] in Hloop. destruct Hloop as [Hlow Hhigh].
  split; [exact Hhigh|]. intros Hmax.
  destruct (Z.to_nat max_retries) as [|n] eqn:Hn; [lia|].
  destruct (map Z.of_nat (seq 0 (S n))) eqn:Hrange; [discriminate | lia].
Qed.

Lemma login_attempts_within_budget_witness :
  attempts_made [] <
  attempts_made (events (login keep_pixels mismatch_raises CaptchaSolver_init
                           (λ _, dashboard_never_shows) "user" "secret" 3
                           empty_disk).2).
Proof.
  apply (proj2 (login_attempts_within_budget keep_pixels mismatch_raises
                  CaptchaSolver_init (λ _, dashboard_never_shows)
                  "user" "secret" 3 empty_disk)).
  lia.
Defined.

(** When the three driver calls before the assignment return, the [try]
    suite leaves [captcha_path] bound to this attempt's file. *)
Lemma login_try_after_capture resample numpy self env username password
    attempt max_retries st r st1 :
  get_login_page env = None → wait_username env = None →
  find_captcha_image env = None →
  login_try resample numpy self env username password attempt max_retries st
    = (r, st1) →
  captcha_path st1 = Some (temp_captcha attempt).
Proof.
  intros Hget Hwait Hfind H.
  unfold login_try, mbind, M_bind, emit, driver_call, assign_captcha_path,
    read_captcha_path, screenshot_to, mret, M_ret, raise in H.
  rewrite Hget, Hwait, Hfind in H.
  step_in H;
    try match goal with
        | Hs : solve ?a ?b ?c ?d ?s = (_, _) |- _ =>
            pose proof (only_logs_solve a b c d s) as Hframe;
            rewrite Hs in Hframe; simpl in Hframe;
            destruct Hframe as [? ?]; clear Hs
        end;
    simplify_eq; simpl in *; congruence.
Qed.

(** The [try] suite returns only through the wait for the dashboard and
    only after [solve] has returned. *)
Lemma login_try_returns resample numpy self env username password
    attempt max_retries st c st1 :
  login_try resample numpy self env username password attempt max_retries st
    = (Ok c, st1) →
  ∃ path st2 solution st3,
    solve resample numpy self path st2 = (Ok solution, st3) ∧
    wait_dashboard env username password solution = None.
Proof.
  intros H.
  unfold login_try, mbind, M_bind, emit, driver_call, assign_captcha_path,
    read_captcha_path, screenshot_to, mret, M_ret, raise in H.
  step_in H; simplify_eq; eexists _, _, _, _; split; eassumption.
Qed.

Lemma login_attempt_after_failure resample numpy self env username password
    attempt max_retries st e st1 :
  login_try resample numpy self env username password attempt max_retries st
    = (Raise e, st1) →
  captcha_path st1 ≠ None →
  ∃ st',
    login_attempt resample numpy self env username password attempt
      max_retries st
    = (if (attempt =? max_retries - 1)%Z then Raise e else Ok Continue_, st').
Proof.
  intros Htry Hbound.
  unfold login_attempt, try_finally, try_except. rewrite Htry.
  destruct (login_except_effect attempt max_retries e st1)
    as (st2 & -> & _ & Hc).
  pose proof (login_finally_effect st2) as Hfin. rewrite Hc in Hfin.
  destruct (captcha_path st1) as [p|]; [|done].
  destruct Hfin as (st3 & -> & _). eauto.
Qed.

Lemma login_loop_whole_budget resample numpy self driver username password
    max_retries :
  (∀ k, get_login_page (driver k) = None ∧ wait_username (driver k) = None ∧
        find_captcha_image (driver k) = None) →
  (∀ k solution, wait_dashboard (driver k) username password solution
                 ≠ None) →
  ∀ k a st,
    0 < k → Z.of_nat (a + k) = max_retries →
    ∃ e st',
      login_loop resample numpy self driver username password max_retries
        (map Z.of_nat (seq a k)) st = (Raise e, st') ∧
      attempts_made (events st') = attempts_made (events st) + k.
Proof.
  intros Hload Hnever. induction k as [|k IH]; intros a st Hk Hmax; [lia|].
  simpl. unfold mbind, M_bind.
  pose proof (login_attempt_counts resample numpy self
                (driver (Z.of_nat a)) username password (Z.of_nat a)
                max_retries st) as Hone.
  destruct (login_try resample numpy self (driver (Z.of_nat a)) username
              password (Z.of_nat a) max_retries st) as [r st1] eqn:Htry.
  destruct (Hload (Z.of_nat a)) as (Hget & Hwait & Hfind).
  pose proof (login_try_after_capture _ _ _ _ _ _ _ _ _ _ _
                Hget Hwait Hfind Htry) as Hbound.
  destruct r as [c|e].
  { apply login_try_returns in Htry as (? & ? & solution & ? & _ & Hshown).
    now apply Hnever in Hshown. }
  destruct (login_attempt_after_failure _ _ _ _ _ _ _ _ _ _ _ Htry)
    as (st' & Hrun); [congruence|].
  rewrite Hrun in *. simpl in Hone.
  destruct (Z.eqb_spec (Z.of_nat a) (max_retries - 1)) as [Hlast|Hmore].
  - exists e, st'. split; [done|]. lia.
  - destruct (IH (S a) st') as (e' & st'' & -> & Hcount); [lia..|].
    exists e', st''. split; [done|]. lia.
Qed.

(** X7. When the login page and the captcha element load in every attempt
    but the dashboard never shows, [login] with a budget of one or more
    makes exactly [max_retries] attempts and then raises; no file that was
    not there before is left. *)
Theorem login_uses_the_whole_budget
    resample numpy self driver username password max_retries st :
  (1 ≤ max_retries)%Z →
  (∀ k, get_login_page (driver k) = None ∧ wait_username (driver k) = None ∧
        find_captcha_image (driver k) = None) →
  (∀ k solution, wait_dashboard (driver k) username password solution
                 ≠ None) →
  ∃ e st',
    login resample numpy self driver username password max_retries st
      = (Raise e, st') ∧
    attempts_made (events st')
      = attempts_made (events st) + Z.to_nat max_retries ∧
    ∀ p, files st !! p = None → files st' !! p = None.
Proof.
  intros Hmax Hload Hnever.
  pose proof (login_loop_keeps_absent resample numpy self driver username
                password max_retries (range max_retries)
                (State (files st) (events st) None)) as Hkeep.
  unfold login, mbind, M_bind, enter_login, range in *.
  destruct (login_loop_whole_budget resample numpy self driver username
              password max_retries Hload Hnever (Z.to_nat max_retries) 0
              (State (files st) (events st) None))
    as (e & st' & Hrun & Hcount); [lia..|].
  rewrite Hrun in *. exists e, st'. split; [done|]. split; [done|].
  intros p Hp. now apply Hkeep.
Qed.

Lemma login_uses_the_whole_budget_witness :
  ∃ e st',
    login keep_pixels mismatch_is_False CaptchaSolver_init
      (λ _, dashboard_never_shows) "user" "secret" 3 empty_disk
      = (Raise e, st') ∧
    attempts_made (events st')
      = attempts_made (events empty_disk) + Z.to_nat 3 ∧
    ∀ p, files empty_disk !! p = None → files st' !! p = None.
Proof.
  apply (login_uses_the_whole_budget keep_pixels mismatch_is_False
           CaptchaSolver_init (λ _, dashboard_never_shows)
           "user" "secret" 3 empty_disk).
  - lia.
  - intros k. repeat split; reflexivity.
  - intros k solution. discriminate.
Defined.

(** With the library as shipped and a NumPy that raises on mismatched
    shapes, [solve] raises on every path and every file system. *)
Lemma shipped_solve_raises resample path st :
  ∃ e st',
    solve resample mismatch_raises CaptchaSolver_init path st
    = (Raise e, st').
Proof.
  unfold solve, _preprocess_image, log_and_reraise, try_except, mbind,
    M_bind, Image_open_L.
  destruct (files st !! path) as [[pic|]|]; simpl; eauto.
Qed.

(** With the library as shipped and a NumPy that answers [False] on
    mismatched shapes, what [solve] returns is the empty string. *)
Lemma shipped_solve_blank resample path st solution st' :
  solve resample mismatch_is_False CaptchaSolver_init path st
    = (Ok solution, st') →
  solution = EmptyString.
Proof.
  unfold solve, _preprocess_image, log_and_reraise, try_except, mbind,
    M_bind, Image_open_L.
  destruct (files st !! path) as [[pic|]|]; simpl; intros H;
    now inversion H.
Qed.

Lemma login_loop_never_true resample numpy self driver username password
    max_retries :
  (∀ path st, ∃ e st', solve resample numpy self path st = (Raise e, st')) →
  ∀ attempts st,
    (login_loop resample numpy self driver username password max_retries
       attempts st).1 ≠ Ok true.
Proof.
  intros Hsolve. induction attempts as [|attempt rest IH]; intros st;
    [discriminate|].
  simpl. unfold mbind, M_bind, login_attempt, try_finally, try_except.
  destruct (login_try resample numpy self (driver attempt) username password
              attempt max_retries st) as [[c|e] st1] eqn:Htry.
  { apply login_try_returns in Htry as (path & st2 & s & st3 & Hs & _).
    destruct (Hsolve path st2) as (e & st4 & He). congruence. }
  destruct (login_except_effect attempt max_retries e st1)
    as (st2 & -> & _).
  destruct (login_finally st2) as [[[]|e'] st3];
    destruct (attempt =? max_retries - 1)%Z; simpl; try discriminate;
    apply IH.
Qed.

(** X8. With the template library as shipped and a NumPy that raises on
    mismatched shapes (1.25 or later), [login] never succeeds, whatever the
    site answers: it never returns [True], and with a budget of one or more
    it raises. *)
Theorem shipped_login_never_succeeds
    resample driver username password max_retries st :
  (login resample mismatch_raises CaptchaSolver_init driver username password
     max_retries st).1 ≠ Ok true ∧
  ((1 ≤ max_retries)%Z →
   ∃ e st',
     login resample mismatch_raises CaptchaSolver_init driver username
       password max_retries st = (Raise e, st')).
Proof.
  assert (Hnever :
    (login resample mismatch_raises CaptchaSolver_init driver username
       password max_retries st).1 ≠ Ok true).
  { unfold login, mbind, M_bind, enter_login.
    apply login_loop_never_true. intros path st0.
    apply shipped_solve_raises. }
  split; [done|]. intros Hmax.
  unfold login, mbind, M_bind, enter_login, range in *.
  destruct (login_loop_outcome resample mismatch_raises CaptchaSolver_init
              driver username password max_retries (Z.to_nat max_retries) 0
              (State (files st) (events st) None))
    as [[st' Hrun]|(e & st' & Hrun)]; [lia..| |eauto].
  rewrite Hrun in Hnever. done.
Qed.

Lemma shipped_login_never_succeeds_witness :
  ∃ e st',
    login keep_pixels mismatch_raises CaptchaSolver_init
      (λ _, always_welcome) "user" "secret" 3 empty_disk = (Raise e, st').
Proof.
  apply (proj2 (shipped_login_never_succeeds keep_pixels
                  (λ _, always_welcome) "user" "secret" 3 empty_disk)).
  lia.
Defined.

Lemma login_try_blank resample env username password attempt max_retries st :
  login_try resample mismatch_is_False CaptchaSolver_init env username
    password attempt max_retries st
  = login_try resample mismatch_is_False CaptchaSolver_init
      (answers_to_blank env) username password attempt max_retries st.
Proof.
  unfold login_try, mbind, M_bind, emit, driver_call, assign_captcha_path,
    read_captcha_path, screenshot_to, mret, M_ret, raise.
  simpl.
  destruct (get_login_page env), (wait_username env),
    (find_captcha_image env); try reflexivity.
  destruct (screenshot env); simpl; try reflexivity;
    match goal with
    | |- context [solve ?a ?b ?c ?d ?s] =>
        destruct (solve a b c d s) as [[solution|e] st1] eqn:Hs;
        [apply shipped_solve_blank in Hs as -> |]; reflexivity
    end.
Qed.

(** X9. With the template library as shipped and a NumPy that answers
    [False] on mismatched shapes (before 1.25), the text typed into the
    captcha field is always the empty string: a call of [login] depends on
    the site only through what the site answers to an empty captcha. *)
Theorem shipped_login_submits_blank_captcha
    resample driver username password max_retries st :
  login resample mismatch_is_False CaptchaSolver_init driver username
    password max_retries st
  = login resample mismatch_is_False CaptchaSolver_init
      (λ attempt, answers_to_blank (driver attempt)) username password
      max_retries st.
Proof.
  unfold login, mbind, M_bind, enter_login.
  generalize (State (files st) (events st) None).
  induction (range max_retries) as [|attempt rest IH]; intros st0;
    [reflexivity|].
  simpl. unfold mbind, M_bind, login_attempt, try_finally, try_except.
  rewrite <- login_try_blank.
  destruct (login_try resample mismatch_is_False CaptchaSolver_init
              (driver attempt) username password attempt max_retries st0)
    as [[c|e] st1]; simpl.
  - destruct (login_finally st1) as [[[]|e] st2]; [|reflexivity].
    destruct c; [reflexivity | apply IH].
  - destruct (login_except attempt max_retries e st1) as [r st2].
    destruct (login_finally st2) as [[[]|e'] st3]; [|reflexivity].
    destruct r as [[b|]|e']; [reflexivity | apply IH | reflexivity].
Qed.

(** ** extract_marks *)

Lemma subject_of_cols_spec cols w :
  subject_of_cols cols w =
  match subject_of cols with
  | Some subject => (Done subject, w)
  | None => (Fail (Core IndexError), w)
  end.
Proof.
  unfold subject_of_cols, subject_of, cell_text, mbind, App_bind, mret,
    App_ret, fail.
  do 6 (destruct cols as [|? cols]; simpl; [reflexivity|]). reflexivity.
Qed.

Lemma marks_loop_spec rows : ∀ marks_data w,
  marks_loop rows marks_data w =
  match mapM subject_of rows with
  | Some subjects => (Done (marks_data ++ subjects), w)
  | None => (Fail (Core IndexError), w)
  end.
Proof.
  induction rows as [|cols rows IH]; intros marks_data w; simpl.
  - now rewrite app_nil_r.
  - unfold mbind at 1, App_bind. rewrite subject_of_cols_spec.
    destruct (subject_of cols) as [subject|]; simpl; [|reflexivity].
    rewrite IH. destruct (mapM subject_of rows); simpl; [|reflexivity].
    now rewrite <- app_assoc.
Qed.

Lemma subject_of_Some cols subject :
  subject_of cols = Some subject ↔
  6 ≤ length cols ∧
  cols !! 0 = Some (Subject.code subject) ∧
  cols !! 1 = Some (Subject.name subject) ∧
  cols !! 2 = Some (Subject.internal subject) ∧
  cols !! 3 = Some (Subject.external subject) ∧
  cols !! 4 = Some (Subject.total subject) ∧
  cols !! 5 = Some (Subject.result subject).
Proof.
  unfold subject_of. destruct subject as [c n i e t r]. simpl.
  do 6 (destruct cols as [|? cols];
        [simpl; split; [discriminate | intros [? ?]; simpl in *;
                          first [lia | naive_solver]]|]).
  simpl. split.
  - intros [= -> -> -> -> -> ->]. repeat split; lia.
  - intros (_ & [= ->] & [= ->] & [= ->] & [= ->] & [= ->] & [= ->]).
    reflexivity.
Qed.

Lemma subject_of_None cols : subject_of cols = None ↔ length cols < 6.
Proof.
  unfold subject_of.
  do 6 (destruct cols as [|? cols]; [simpl; split; [lia | done]|]).
  simpl. split; [discriminate | lia].
Qed.

(** X10. When the driver calls of [extract_marks] return and every row
    after the first has at least six cells, the result has one record per
    row after the first, in the order of the table: the header row is
    skipped, the six fields are the first six cells and further cells are
    ignored. A table without any row gives the empty list. *)
Theorem extract_marks_reads_the_rows self web semester w :
  get_marks_page (marks_pages web) = None →
  (∀ s, truthy semester = Some s →
        click_semester_select (marks_pages web) = None ∧
        click_semester_option (marks_pages web) s = None) →
  wait_marks_table (marks_pages web) = None →
  find_marks_table (marks_pages web) = None →
  Forall (λ cols, 6 ≤ length cols)
    (tail (table_rows (marks_pages web) (truthy semester))) →
  ∃ marks_data,
    extract_marks self web semester w
      = (Done marks_data, after_selection self semester w) ∧
    length marks_data
      = length (table_rows (marks_pages web) (truthy semester)) - 1 ∧
    Forall2 (λ cols subject,
        cols !! 0 = Some (Subject.code subject) ∧
        cols !! 1 = Some (Subject.name subject) ∧
        cols !! 2 = Some (Subject.internal subject) ∧
        cols !! 3 = Some (Subject.external subject) ∧
        cols !! 4 = Some (Subject.total subject) ∧
        cols !! 5 = Some (Subject.result subject))
      (tail (table_rows (marks_pages web) (truthy semester))) marks_data.
Proof.
  intros Hget Hclick Hwait Hfind Hrows.
  destruct (mapM subject_of
              (tail (table_rows (marks_pages web) (truthy semester))))
    as [marks_data|] eqn:Hmap.
  2:{ apply mapM_None in Hmap. apply Exists_exists in Hmap as (cols & Hin & Hnone).
      apply subject_of_None in Hnone.
      rewrite Forall_forall in Hrows. specialize (Hrows cols Hin). lia. }
  exists marks_data. split; [|split].
  - unfold extract_marks, after_selection, app_log_and_reraise,
      app_try_except, mbind, App_bind, note, app_call, mret, App_ret.
    rewrite Hget. simpl.
    destruct (truthy semester) as [s|] eqn:Htruthy; simpl.
    + destruct (Hclick s eq_refl) as [-> ->]. simpl.
      rewrite Hwait, Hfind. simpl. rewrite marks_loop_spec, Hmap. simpl.
      now rewrite <- app_assoc.
    + rewrite Hwait, Hfind. simpl. rewrite marks_loop_spec, Hmap.
      reflexivity.
  - apply length_mapM in Hmap. rewrite <- Hmap.
    destruct (table_rows (marks_pages web) (truthy semester)); simpl; lia.
  - apply mapM_Some in Hmap. eapply Forall2_impl; [exact Hmap|].
    intros cols subject Hsubject. now apply subject_of_Some in Hsubject.
Qed.

Lemma extract_marks_reads_the_rows_witness :
  ∃ marks_data,
    extract_marks AUInfoExtractor_init friendly_site None fresh_run
      = (Done marks_data,
         after_selection AUInfoExtractor_init None fresh_run) ∧
    length marks_data
      = length (table_rows (marks_pages friendly_site) (truthy None)) - 1 ∧
    Forall2 (λ cols subject,
        cols !! 0 = Some (Subject.code subject) ∧
        cols !! 1 = Some (Subject.name subject) ∧
        cols !! 2 = Some (Subject.internal subject) ∧
        cols !! 3 = Some (Subject.external subject) ∧
        cols !! 4 = Some (Subject.total subject) ∧
        cols !! 5 = Some (Subject.result subject))
      (tail (table_rows (marks_pages friendly_site) (truthy None)))
      marks_data.
Proof.
  apply (extract_marks_reads_the_rows AUInfoExtractor_init friendly_site
           None fresh_run).
  - reflexivity.
  - intros s Hs. discriminate.
  - reflexivity.
  - reflexivity.
  - simpl. repeat constructor; simpl; lia.
Defined.

(** X11. When the driver calls return and some row after the first has
    fewer than six cells, [extract_marks] raises [IndexError]: the error is
    logged and no part of the table is returned. *)
Theorem extract_marks_rejects_a_short_row self web semester w :
  get_marks_page (marks_pages web) = None →
  (∀ s, truthy semester = Some s →
        click_semester_select (marks_pages web) = None ∧
        click_semester_option (marks_pages web) s = None) →
  wait_marks_table (marks_pages web) = None →
  find_marks_table (marks_pages web) = None →
  Exists (λ cols, length cols < 6)
    (tail (table_rows (marks_pages web) (truthy semester))) →
  extract_marks self web semester w
  = (Fail (Core IndexError),
     AppState (core w)
       (journal (after_selection self semester w)
          ++ [log_error_marks (Core IndexError)])
       (driver w)).
Proof.
  intros Hget Hclick Hwait Hfind Hrows.
  assert (Hmap : mapM subject_of
            (tail (table_rows (marks_pages web) (truthy semester))) = None).
  { apply mapM_None. eapply Exists_impl; [exact Hrows|].
    intros cols Hshort. now apply subject_of_None. }
  unfold extract_marks, after_selection, app_log_and_reraise,
    app_try_except, mbind, App_bind, note, app_call, mret, App_ret, fail.
  rewrite Hget. simpl.
  destruct (truthy semester) as [s|] eqn:Htruthy; simpl.
  - destruct (Hclick s eq_refl) as [-> ->]. simpl.
    rewrite Hwait, Hfind. simpl. rewrite marks_loop_spec, Hmap. simpl.
    now rewrite <- !app_assoc.
  - rewrite Hwait, Hfind. simpl. rewrite marks_loop_spec, Hmap. simpl.
    now rewrite <- !app_assoc.
Qed.

Lemma extract_marks_rejects_a_short_row_witness :
  extract_marks AUInfoExtractor_init short_row_site None fresh_run
  = (Fail (Core IndexError),
     AppState (core fresh_run)
       (journal (after_selection AUInfoExtractor_init None fresh_run)
          ++ [log_error_marks (Core IndexError)])
       (driver fresh_run)).
Proof.
  apply (extract_marks_rejects_a_short_row AUInfoExtractor_init
           short_row_site None fresh_run).
  - reflexivity.
  - intros s Hs. discriminate.
  - reflexivity.
  - reflexivity.
  - simpl. right. left. simpl. lia.
Defined.

(** ** extract_info *)

Lemma contained_ret P {A} (a : A) : contained P (mret a).
Proof.
  intros w. split; [done|]. split; [|discriminate].
  exists []. now rewrite app_nil_r.
Qed.

Lemma contained_fail P {A} e : contained P (@fail A (Core e)).
Proof.
  intros w. split; [done|]. split.
  - exists []. now rewrite app_nil_r.
  - intros e' [= <-]. eauto.
Qed.

Lemma contained_note (P : app_event → Prop) ev : P ev → contained P (note ev).
Proof.
  intros Hev w. split; [done|]. split; [|discriminate].
  exists [ev]. split; [done|]. now constructor.
Qed.

Lemma contained_call P answer : contained P (app_call answer).
Proof.
  destruct answer; [apply contained_fail | apply contained_ret].
Qed.

Lemma contained_bind P {A B} (m : App A) (f : A → App B) :
  contained P m → (∀ a, contained P (f a)) → contained P (m ≫= f).
Proof.
  intros Hm Hf w. unfold mbind, App_bind.
  destruct (Hm w) as (Hd1 & (evs1 & Hevs1 & HP1) & Hfail1).
  destruct (m w) as [[a|e] w1]; simpl in *.
  - destruct (Hf a w1) as (Hd2 & (evs2 & Hevs2 & HP2) & Hfail2).
    split; [congruence|]. split; [|done].
    exists (evs1 ++ evs2). rewrite Hevs2, Hevs1, <- app_assoc.
    split; [done|]. now apply Forall_app.
  - split; [done|]. split; [eauto|]. intros e' [= <-]. now apply Hfail1.
Qed.

Lemma contained_reraise (P : app_event → Prop) {A} msg (m : App A) :
  (∀ e, P (msg e)) → contained P m → contained P (app_log_and_reraise msg m).
Proof.
  intros Hmsg Hm w. unfold app_log_and_reraise, app_try_except.
  destruct (Hm w) as (Hd1 & (evs1 & Hevs1 & HP1) & Hfail1).
  destruct (m w) as [[a|e] w1]; simpl in *; [eauto|].
  split; [done|]. split.
  - exists (evs1 ++ [msg e]). rewrite Hevs1, <- app_assoc. split; [done|].
    apply Forall_app. split; [done|]. constructor; [apply Hmsg | constructor].
  - intros e' [= <-]. now apply Hfail1.
Qed.

Lemma contained_lift P {A} (m : M A) : contained P (lift m).
Proof.
  intros w. unfold lift. destruct (m (core w)) as [[a|e] st]; simpl.
  - split; [done|]. split; [|discriminate].
    exists []. now rewrite app_nil_r.
  - split; [done|]. split; [exists []; now rewrite app_nil_r|].
    intros e' [= <-]. eauto.
Qed.

Lemma contained_marks_loop P rows marks_data :
  contained P (marks_loop rows marks_data).
Proof.
  intros w. rewrite marks_loop_spec.
  destruct (mapM subject_of rows); simpl.
  - split; [done|]. split; [|discriminate].
    exists []. now rewrite app_nil_r.
  - split; [done|]. split; [exists []; now rewrite app_nil_r|].
    intros e' [= <-]. eauto.
Qed.

Lemma contained_extract_marks self web semester :
  contained inner_line (extract_marks self web semester).
Proof.
  apply contained_reraise; [done|].
  apply contained_bind; [now apply contained_note|]. intros _.
  apply contained_bind; [apply contained_call|]. intros _.
  apply contained_bind.
  - destruct (truthy semester) as [s|]; [|apply contained_ret].
    apply contained_bind; [apply contained_call|]. intros _.
    apply contained_bind; [apply contained_call|]. intros _.
    apply contained_bind; [now apply contained_note|]. intros _.
    apply contained_ret.
  - intros selected.
    apply contained_bind; [apply contained_call|]. intros _.
    apply contained_bind; [apply contained_call|]. intros _.
    apply contained_marks_loop.
Qed.

Lemma starts_app evs1 evs2 : starts (evs1 ++ evs2) = starts evs1 + starts evs2.
Proof.
  induction evs1 as [|ev evs1 IH]; [done|].
  destruct ev; simpl; rewrite ?IH; done.
Qed.

Lemma quits_app evs1 evs2 : quits (evs1 ++ evs2) = quits evs1 + quits evs2.
Proof.
  induction evs1 as [|ev evs1 IH]; [done|].
  destruct ev; simpl; rewrite ?IH; done.
Qed.

Lemma printed_lines_app evs1 evs2 :
  printed_lines (evs1 ++ evs2) = printed_lines evs1 ++ printed_lines evs2.
Proof.
  induction evs1 as [|ev evs1 IH]; [done|].
  destruct ev; simpl; rewrite ?IH; done.
Qed.

Lemma written_files_app evs1 evs2 :
  written_files (evs1 ++ evs2) = written_files evs1 ++ written_files evs2.
Proof.
  induction evs1 as [|ev evs1 IH]; [done|].
  destruct ev; simpl; rewrite ?IH; done.
Qed.

Lemma inner_lines_count evs :
  Forall inner_line evs →
  starts evs = 0 ∧ quits evs = 0 ∧
  printed_lines evs = [] ∧ written_files evs = [].
Proof.
  induction 1 as [|ev evs Hev _ IH]; [done|].
  destruct ev; simpl in *; done.
Qed.

(** A call of [login] with the default budget returns [True] or raises. *)
Lemma login_default_outcome resample numpy self pages username password st :
  (∃ st', login resample numpy self pages username password 3 st
          = (Ok true, st')) ∨
  (∃ e st', login resample numpy self pages username password 3 st
            = (Raise e, st')).
Proof.
  unfold login, mbind, M_bind, enter_login, range.
  apply login_loop_outcome; lia.
Qed.

(** What the [try] suite of [extract_info] leaves behind when it starts
    with [driver] unset. *)
Lemma extract_info_try_summary resample numpy self web username password
    semester w :
  driver w = None →
  ∃ r w' evs,
    extract_info_try resample numpy self web username password semester w
      = (r, w') ∧
    journal w' = journal w ++ evs ∧
    (∀ e, r = Fail e → ∃ e', e = Core e') ∧
    match start_chrome web, implicitly_wait web with
    | None, None =>
        driver w' = Some web ∧
        ∃ evs', evs = chrome_started :: evs' ∧ Forall inner_line evs'
    | None, Some _ =>
        driver w' = None ∧ ∃ e, evs = [chrome_started; log_error_setup e]
    | Some _, _ =>
        driver w' = None ∧ ∃ e, evs = [log_error_setup e]
    end.
Proof.
  intros Hd.
  unfold extract_info_try, setup_driver, app_log_and_reraise,
    app_try_except, mbind, App_bind, app_call, note, assign_driver, fail,
    mret, App_ret.
  destruct (start_chrome web) as [e|]; simpl.
  { eexists _, _, _. split; [reflexivity|]. simpl. split; [reflexivity|].
    split; [intros e' [= <-]; eauto | eauto]. }
  destruct (implicitly_wait web) as [e|]; simpl.
  { eexists _, _, _. split; [reflexivity|]. simpl.
    rewrite <- app_assoc. split; [reflexivity|].
    split; [intros e' [= <-]; eauto | eauto]. }
  unfold lift. simpl.
  destruct (login_default_outcome resample numpy (captcha_solver self)
              (login_pages web) username password (core w))
    as [[st' ->]|(e & st' & ->)]; simpl.
  - match goal with
    | |- context [extract_marks self web semester ?w0] =>
        destruct (contained_extract_marks self web semester w0)
          as (Hd1 & (evs1 & Hevs1 & HP1) & Hfail1);
        destruct (extract_marks self web semester w0) as [[marks|e] w1]
    end; simpl in *.
    + eexists _, _, _. split; [reflexivity|]. rewrite Hevs1, <- app_assoc.
      split; [reflexivity|]. split; [discriminate|]. split; [done|]. eauto.
    + eexists _, _, _. split; [reflexivity|]. rewrite Hevs1, <- app_assoc.
      split; [reflexivity|]. split; [intros e' [= <-]; eauto|].
      split; [done|]. eauto.
  - eexists _, _, _. split; [reflexivity|]. simpl.
    split; [reflexivity|]. split; [intros e' [= <-]; eauto|].
    split; [done|]. exists []. split; [done | constructor].
Qed.

Lemma extract_info_summary resample numpy self web username password
    semester w :
  ∃ r w' evs,
    extract_info resample numpy self web username password semester w
      = (r, w') ∧
    journal w' = journal w ++ evs ∧
    (∀ e, r = Fail e → ∃ e', e = Core e') ∧
    starts evs = (if start_chrome web is None then 1 else 0) ∧
    quits evs = match start_chrome web, implicitly_wait web with
                | None, None => 1
                | _, _ => 0
                end ∧
    printed_lines evs = [] ∧ written_files evs = [].
Proof.
  unfold extract_info, mbind at 1, App_bind at 1, assign_driver,
    app_try_finally, app_log_and_reraise, app_try_except.
  destruct (extract_info_try_summary resample numpy self web username
              password semester (AppState (core w) (journal w) None) eq_refl)
    as (r0 & w0 & evs0 & -> & Hevs0 & Hfail0 & Hshape).
  simpl in Hevs0.
  assert (Hmid : ∃ r1 w1 evs1,
    match r0 with
    | Done a => (Done a, w0)
    | Fail e => (_ ← note (log_error_extraction e); fail e) w0
    end = (r1, w1) ∧
    journal w1 = journal w0 ++ evs1 ∧ driver w1 = driver w0 ∧
    Forall inner_line evs1 ∧ (∀ e, r1 = Fail e → ∃ e', e = Core e')).
  { destruct r0 as [a|e].
    - exists (Done a), w0, []. rewrite app_nil_r. repeat split; try done.
    - eexists _, _, _. split; [reflexivity|]. simpl.
      repeat split; try done. now repeat constructor. }
  destruct Hmid as (r1 & w1 & evs1 & -> & Hevs1 & Hd1 & HP1 & Hfail1).
  destruct (inner_lines_count evs1 HP1) as (Hs1 & Hq1 & Hp1 & Hw1).
  unfold extract_info_finally, mbind, App_bind, read_driver, note, app_call,
    mret, App_ret, fail.
  rewrite Hd1.
  destruct (start_chrome web) as [e|]; simpl in *.
  { destruct Hshape as (-> & e' & ->). simpl.
    exists r1, w1, ([log_error_setup e'] ++ evs1).
    rewrite Hevs1, Hevs0, <- app_assoc, starts_app, quits_app,
      printed_lines_app, written_files_app, Hs1, Hq1, Hp1, Hw1.
    repeat split; done. }
  destruct (implicitly_wait web) as [e|]; simpl in *.
  { destruct Hshape as (-> & e' & ->). simpl.
    exists r1, w1, ([chrome_started; log_error_setup e'] ++ evs1).
    rewrite Hevs1, Hevs0, <- app_assoc, starts_app, quits_app,
      printed_lines_app, written_files_app, Hs1, Hq1, Hp1, Hw1.
    repeat split; done. }
  destruct Hshape as (-> & evs' & -> & HP'). simpl.
  destruct (inner_lines_count evs' HP') as (Hs' & Hq' & Hp' & Hw').
  destruct (quit_chrome web) as [e|]; simpl;
    eexists _, _, ((chrome_started :: evs') ++ evs1 ++ [chrome_quit]);
    (split; [reflexivity|]); simpl;
    rewrite Hevs1, Hevs0, <- !app_assoc, starts_app, quits_app,
      printed_lines_app, written_files_app, starts_app, quits_app,
      printed_lines_app, written_files_app, Hs1, Hq1, Hp1, Hw1, Hs', Hq',
      Hp', Hw'; simpl;
    repeat split; try done; try lia.
  intros e' [= <-]. eauto.
Qed.

(** X12. [extract_info] quits the browser exactly when [setup_driver]
    returned, however the login and the extraction end. A Chrome that
    started but whose [implicitly_wait] failed is never quit: [driver] is
    still [None] when the [finally] clause runs. *)
Theorem extract_info_quits_what_setup_returned
    resample numpy self web username password semester w :
  ∃ evs,
    journal (extract_info resample numpy self web username password
               semester w).2 = journal w ++ evs ∧
    starts evs = (if start_chrome web is None then 1 else 0) ∧
    quits evs = match start_chrome web, implicitly_wait web with
                | None, None => 1
                | _, _ => 0
                end.
Proof.
  destruct (extract_info_summary resample numpy self web username password
              semester w) as (r & w' & evs & -> & Hevs & _ & Hs & Hq & _).
  eauto.
Qed.


(** X14. When the browser is set up and [login] raises, [extract_info]
    logs the error, quits the browser and raises the exception of [login]
    (or the one of [driver.quit()] when that call fails too); the marks
    page is never requested. *)
Theorem extract_info_stops_at_a_failed_login
    resample numpy self web username password semester w e st1 :
  start_chrome web = None → implicitly_wait web = None →
  login resample numpy (captcha_solver self) (login_pages web) username
    password 3 (core w) = (Raise e, st1) →
  extract_info resample numpy self web username password semester w
  = (Fail (Core (if quit_chrome web is Some e' then e' else e)),
     AppState st1
       (journal w ++ [chrome_started; log_error_extraction (Core e);
                      chrome_quit])
       (Some web)).
Proof.
  intros Hstart Hwait Hlogin.
  unfold extract_info, extract_info_try, extract_info_finally, setup_driver,
    app_try_finally, app_log_and_reraise, app_try_except, mbind, App_bind,
    app_call, note, assign_driver, read_driver, lift, fail, mret, App_ret.
  rewrite Hstart, Hwait. simpl. rewrite Hlogin. simpl.
  destruct (quit_chrome web); simpl; now rewrite <- !app_assoc.
Qed.

Lemma extract_info_stops_at_a_failed_login_witness :
  extract_info keep_pixels mismatch_raises AUInfoExtractor_init friendly_site
    "user" "secret" None fresh_run
  = (Fail (Core ValueError),
     AppState
       (login keep_pixels mismatch_raises CaptchaSolver_init
          (λ _, always_welcome) "user" "secret" 3 empty_disk).2
       [chrome_started; log_error_extraction (Core ValueError); chrome_quit]
       (Some friendly_site)).
Proof.
  apply (extract_info_stops_at_a_failed_login keep_pixels mismatch_raises
           AUInfoExtractor_init friendly_site "user" "secret" None fresh_run
           ValueError).
  - reflexivity.
  - reflexivity.
  - vm_compute. reflexivity.
Defined.

(** ** main *)

Lemma print_subjects_spec marks_data : ∀ w,
  print_subjects marks_data w
  = (Done tt,
     AppState (core w)
       (journal w ++ map printed (flat_map lines_of marks_data))
       (driver w)).
Proof.
  induction marks_data as [|subject rest IH]; intros w; simpl.
  - rewrite app_nil_r. now destruct w.
  - unfold mbind at 1, App_bind at 1, print_subject, mbind, App_bind, note.
    simpl. rewrite IH. simpl. now rewrite <- !app_assoc.
Qed.

(** X15. What [main] does with the marks [extract_info] returned. Without
    an output path (or with an empty one) it prints five lines per subject,
    in the order of the list, and writes no file. With an output path it
    prints nothing: it writes the marks to the file and exits with status
    0, or exits with status 1 when the file cannot be opened; but when the
    list of marks is empty no file is written at all. *)
Theorem main_prints_or_writes
    resample numpy web can_write args w marks_data w1 :
  extract_info resample numpy AUInfoExtractor_init web (Args.username args)
    (Args.password args) (Args.semester args) w = (Done marks_data, w1) →
  main resample numpy web can_write args w
  = match truthy (Args.output args), marks_data with
    | None, _ =>
        (0%Z, AppState (core w1)
                (journal w1 ++ map printed (flat_map lines_of marks_data))
                (driver w1))
    | Some path, [] => (0%Z, w1)
    | Some path, _ :: _ =>
        if can_write path
        then (0%Z, AppState (core w1)
                     (journal w1 ++ [json_written path marks_data;
                                     log_info_saved path])
                     (driver w1))
        else (1%Z, AppState (core w1)
                     (journal w1 ++ [log_error_main OSError]) (driver w1))
    end.
Proof.
  intros Hinfo. unfold main, main_try, mbind, App_bind. rewrite Hinfo.
  destruct marks_data as [|subject rest].
  - simpl. destruct (truthy (Args.output args)); [done|].
    rewrite app_nil_r. now destruct w1.
  - destruct (truthy (Args.output args)) as [path|].
    + unfold dump_json, note, fail, mret, App_ret.
      destruct (can_write path); simpl; [|done].
      now rewrite <- app_assoc.
    + now rewrite print_subjects_spec.
Qed.

(** When [extract_info] raises, [main] logs the error once and exits
    with status 1. *)
Lemma main_exits_1_on_error resample numpy web can_write args w e w1 :
  extract_info resample numpy AUInfoExtractor_init web (Args.username args)
    (Args.password args) (Args.semester args) w = (Fail e, w1) →
  main resample numpy web can_write args w
  = (1%Z, AppState (core w1) (journal w1 ++ [log_error_main e]) (driver w1)).
Proof.
  intros Hinfo. unfold main, main_try, mbind, App_bind. now rewrite Hinfo.
Qed.

Lemma login_default_never_true_shipped resample pages username password st :
  ∃ e st',
    login resample mismatch_raises CaptchaSolver_init pages username
      password 3 st = (Raise e, st').
Proof.
  destruct (login_default_outcome resample mismatch_raises CaptchaSolver_init
              pages username password st)
    as [[st' Hrun]|?]; [|done].
  exfalso.
  pose proof (login_loop_never_true resample mismatch_raises
                CaptchaSolver_init pages username password 3
                (shipped_solve_raises resample) (range 3)
                (State (files st) (events st) None)) as Hnever.
  unfold login, mbind, M_bind, enter_login in Hrun.
  rewrite Hrun in Hnever. done.
Qed.

(** X16. Once [parser.parse_args()] has returned the arguments (a command
    line that it rejects, or one that asks for help, ends the program
    there, before the [try]), with the template library as shipped and a
    NumPy that raises on mismatched shapes (1.25 or later), the program
    fails on every site and for all arguments: the [try] statement of
    [main] ends in [sys.exit(1)], the marks page is never requested,
    nothing is printed and no file is written. *)
Theorem shipped_program_always_exits_1 resample web can_write args w :
  ∃ w' evs,
    main resample mismatch_raises web can_write args w = (1%Z, w') ∧
    journal w' = journal w ++ evs ∧
    marks_requests evs = 0 ∧
    printed_lines evs = [] ∧
    written_files evs = [].
Proof.
  unfold main, main_try, mbind at 1, App_bind at 1.
  unfold extract_info, extract_info_try, extract_info_finally, setup_driver,
    app_try_finally, app_log_and_reraise, app_try_except, mbind, App_bind,
    app_call, note, assign_driver, read_driver, lift, fail, mret, App_ret.
  destruct (start_chrome web) as [e0|]; simpl.
  { eexists _, _. split; [reflexivity|]. simpl.
    rewrite <- !app_assoc. split; [reflexivity|]. done. }
  destruct (implicitly_wait web) as [e0|]; simpl.
  { eexists _, _. split; [reflexivity|]. simpl.
    rewrite <- !app_assoc. split; [reflexivity|]. done. }
  destruct (login_default_never_true_shipped resample (login_pages web)
              (Args.username args) (Args.password args) (core w))
    as (e & st' & ->). simpl.
  destruct (quit_chrome web) as [e0|]; simpl;
    (eexists _, _; split; [reflexivity|]); simpl;
    rewrite <- !app_assoc; (split; [reflexivity|]); done.
Qed.

Lemma main_prints_or_writes_witness :
  main keep_pixels mismatch_is_False friendly_site (λ _, true) plain_args
    fresh_run
  = (0%Z,
     AppState
       (core (extract_info keep_pixels mismatch_is_False AUInfoExtractor_init
                friendly_site "user" "secret" None fresh_run).2)
       (journal (extract_info keep_pixels mismatch_is_False
                   AUInfoExtractor_init friendly_site "user" "secret" None
                   fresh_run).2
        ++ map printed
             (flat_map lines_of
                [Subject.Make "CS101" "Programming" "18" "70" "88" "PASS";
                 Subject.Make "MA102" "Calculus" "12" "30" "42" "FAIL"]))
       (driver (extract_info keep_pixels mismatch_is_False
                  AUInfoExtractor_init friendly_site "user" "secret" None
                  fresh_run).2)).
Proof.
  apply (main_prints_or_writes keep_pixels mismatch_is_False friendly_site
           (λ _, true) plain_args fresh_run
           [Subject.Make "CS101" "Programming" "18" "70" "88" "PASS";
            Subject.Make "MA102" "Calculus" "12" "30" "42" "FAIL"]
           (extract_info keep_pixels mismatch_is_False AUInfoExtractor_init
              friendly_site "user" "secret" None fresh_run).2).
  vm_compute. reflexivity.
Defined.

(** ** The length of a solution *)

Lemma match_loop_label numpy self cell ts : ∀ idx best st best' st',
  String.length best.2 ≤ 1 →
  match_loop numpy self cell ts idx best st = (Ok best', st') →
  String.length best'.2 ≤ 1.
Proof.
  induction ts as [|t ts IH]; intros idx best st best' st' Hbest H.
  - simpl in H. unfold mret, M_ret in H. inversion H; subst. exact Hbest.
  - simpl in H. unfold mbind, M_bind in H.
    destruct (_calculate_match_percentage numpy cell t st) as [[p|e] st1];
      [|discriminate].
    destruct (np_gt p best.1).
    + unfold str_index in H.
      destruct (String.get idx (char_map self)) as [ch|];
        simpl in H; [|discriminate].
      eapply IH; [|exact H]. simpl. lia.
    + simpl in H. eapply IH; [|exact H]. done.
Qed.

Lemma solve_positions_labels numpy self matrix positions :
  ∀ result st result' st',
  Forall (λ label, String.length label ≤ 1) result →
  solve_positions numpy self matrix positions result st = (Ok result', st') →
  Forall (λ label, String.length label ≤ 1) result' ∧
  length result' = length result + length positions.
Proof.
  induction positions as [|i positions IH];
    intros result st result' st' Hresult H.
  - simpl in H. inversion H; subst. split; [done | simpl; lia].
  - simpl in H. unfold mbind at 1, M_bind at 1 in H.
    destruct (solve_position numpy self matrix i st) as [[label|e] st1] eqn:Hp;
      [|discriminate].
    assert (Hlabel : String.length label ≤ 1).
    { unfold solve_position, mbind, M_bind in Hp.
      rewrite extract_character_ok in Hp.
      destruct (match_loop numpy self _ (test_set self) 0
                  (Finite 0, EmptyString) st) as [[best|e] st2] eqn:Hloop;
        [|discriminate].
      apply match_loop_label in Hloop; [|simpl; lia].
      destruct (np_lt best.1 (Finite 50)); simpl in Hp; now inversion Hp. }
    apply IH in H as [Hall Hlen].
    + split; [done|]. rewrite Hlen, length_app. simpl. lia.
    + apply Forall_app. split; [done|]. constructor; [done | constructor].
Qed.

Lemma join_short_labels labels :
  Forall (λ label, String.length label ≤ 1) labels →
  String.length (join labels) ≤ length labels.
Proof.
  unfold join. induction 1 as [|label labels Hlabel _ IH]; simpl; [lia|].
  rewrite string_length_append. lia.
Qed.

(** X17. Whatever the library, the image and the NumPy version, a solution
    [solve] returns never has more than 6 characters: every position
    contributes one character of [char_map] or nothing. *)
Theorem solve_returns_at_most_six_characters
    resample numpy self path st solution st' :
  solve resample numpy self path st = (Ok solution, st') →
  String.length solution ≤ 6.
Proof.
  unfold solve, log_and_reraise, try_except, mbind, M_bind. intros H.
  destruct (_preprocess_image resample path st) as [[matrix|e] st1];
    [|simpl in H; discriminate].
  destruct (solve_positions numpy self matrix (range 6) [] st1)
    as [[labels|e] st2] eqn:Hlabels; [|simpl in H; discriminate].
  simpl in H. inversion H; subst.
  apply solve_positions_labels in Hlabels as [Hall Hlen]; [|constructor].
  apply join_short_labels in Hall. simpl in Hlen. lia.
Qed.

Lemma solve_returns_at_most_six_characters_witness :
  String.length "000000" ≤ 6.
Proof.
  apply (solve_returns_at_most_six_characters keep_pixels mismatch_raises
           two_white_templates "c.png" (disk_with "c.png" white_captcha)
           "000000"
           (solve keep_pixels mismatch_raises two_white_templates "c.png"
              (disk_with "c.png" white_captcha)).2).
  vm_compute. reflexivity.
Defined.
